(** * ReceiptScanner: a shallow embedding of [src/components/ReceiptScanner.tsx]

    The component accepts a dropped image or PDF receipt, encodes it as
    base64, sends it to a hosted generative model, extracts a JSON object from
    the free-text reply and hands the decoded record to its parent.

    The embedding keeps the structure of the source:
    - [ReceiptData], [Session] : the TypeScript record type and the four
      [useState] cells of the component;
    - [M] : a small state-and-exception monad over a [World] that holds the
      session, the browser's object-URL store and the trace of effects;
    - [fileToGenerativePart], [processReceipt], [onDrop], [clearPreview] :
      the four functions of the component, statement by statement.

    Platform and library functions that the component calls but does not
    define are either given by their published behaviour
    ([FileReader.readAsDataURL], RFC 4648 base64, [String.prototype.split],
    the backtracking semantics of the regular expression, property access
    and [Array.prototype.join] on decoded JSON values) or taken from an
    environment record [Env] ([JSON.parse], pdf-lib, the model client, the
    parent's callback, react-dropzone, the number conversions of the
    engine). *)

From Stdlib Require Import List String Ascii Strings.Byte Bool Arith NArith ZArith Lia.
From Stdlib Require PrimFloat.
Import ListNotations.
Local Open Scope string_scope.

Set Implicit Arguments.

(** ** JavaScript strings *)

Module JsString.

(** [s.startsWith(p)] *)
Fixpoint startsWith (p s : string) : bool :=
  match p, s with
  | EmptyString, _ => true
  | String a p', String b s' => Ascii.eqb a b && startsWith p' s'
  | String _ _, EmptyString => false
  end.

(** A string is truthy exactly when it is not empty. *)
Definition truthy (s : string) : bool :=
  match s with
  | EmptyString => false
  | String _ _ => true
  end.

(** [x ? ... : ...] on a value of type [string | null | undefined]. *)
Definition truthyOpt (o : option string) : bool :=
  match o with
  | Some s => truthy s
  | None => false
  end.

(** [s.split(sep)] for a one-character separator: the pieces between the
    occurrences of [sep], in order; always at least one piece. *)
Fixpoint split (sep : ascii) (s : string) : list string :=
  match s with
  | EmptyString => [EmptyString]
  | String c s' =>
      if Ascii.eqb c sep then EmptyString :: split sep s'
      else match split sep s' with
           | piece :: pieces => String c piece :: pieces
           | [] => [String c EmptyString]
           end
  end.

(** [xs.join(sep)] on an array of strings. *)
Definition join (sep : string) (xs : list string) : string :=
  String.concat sep xs.

(** [xs.slice(0, n)] *)
Definition slice0 {A : Type} (n : nat) (xs : list A) : list A := firstn n xs.

(** Whether the character [c] occurs in [s]. *)
Fixpoint occurs (c : ascii) (s : string) : bool :=
  match s with
  | EmptyString => false
  | String a s' => Ascii.eqb a c || occurs c s'
  end.

(** [s.indexOf(c)], with [None] for -1. *)
Fixpoint indexOf (c : ascii) (s : string) : option nat :=
  match s with
  | EmptyString => None
  | String a s' =>
      if Ascii.eqb a c then Some 0
      else option_map S (indexOf c s')
  end.

(** [s.lastIndexOf(c)], with [None] for -1. *)
Fixpoint lastIndexOf (c : ascii) (s : string) : option nat :=
  match s with
  | EmptyString => None
  | String a s' =>
      match lastIndexOf c s' with
      | Some j => Some (S j)
      | None => if Ascii.eqb a c then Some 0 else None
      end
  end.

End JsString.

(** ** Base64 (RFC 4648), as produced by [FileReader.readAsDataURL] and by
    pdf-lib's [saveAsBase64] *)

Module Base64.

Definition alphabet : string :=
  "ABCDEFGHIJKLMNOPQRSTUVWXYZabcdefghijklmnopqrstuvwxyz0123456789+/".

Definition pad : ascii := "="%char.

(** The character of a six-bit group. *)
Definition char (n : N) : ascii :=
  match String.get (N.to_nat n) alphabet with
  | Some c => c
  | None => pad
  end.

Fixpoint position (c : ascii) (s : string) : option N :=
  match s with
  | EmptyString => None
  | String a s' =>
      if Ascii.eqb a c then Some 0%N
      else option_map N.succ (position c s')
  end.

(** The six-bit group of a character of the alphabet. *)
Definition index (c : ascii) : option N := position c alphabet.

Local Open Scope N_scope.

(** Three octets make four six-bit groups. *)
Definition sextet1 (a : N) : N := a / 4.
Definition sextet2 (a b : N) : N := (a mod 4) * 16 + b / 16.
Definition sextet3 (b c : N) : N := (b mod 16) * 4 + c / 64.
Definition sextet4 (c : N) : N := c mod 64.

Fixpoint encode (bs : list byte) : string :=
  match bs with
  | [] => EmptyString
  | [x] =>
      let a := Byte.to_N x in
      String (char (sextet1 a)) (String (char (sextet2 a 0))
        (String pad (String pad EmptyString)))
  | [x; y] =>
      let a := Byte.to_N x in
      let b := Byte.to_N y in
      String (char (sextet1 a)) (String (char (sextet2 a b))
        (String (char (sextet3 b 0)) (String pad EmptyString)))
  | x :: y :: z :: rest =>
      let a := Byte.to_N x in
      let b := Byte.to_N y in
      let c := Byte.to_N z in
      String (char (sextet1 a)) (String (char (sextet2 a b))
        (String (char (sextet3 b c)) (String (char (sextet4 c))
          (encode rest))))
  end.

(** Four six-bit groups make three octets. *)
Definition octet1 (s1 s2 : N) : N := s1 * 4 + s2 / 16.
Definition octet2 (s2 s3 : N) : N := (s2 mod 16) * 16 + s3 / 4.
Definition octet3 (s3 s4 : N) : N := (s3 mod 4) * 64 + s4.

Definition bind {A B : Type} (o : option A) (k : A -> option B) : option B :=
  match o with
  | Some a => k a
  | None => None
  end.

(** Decoding of padded base64: groups of four characters, padding allowed in
    the last group only. *)
Fixpoint decode (s : string) : option (list byte) :=
  match s with
  | EmptyString => Some []
  | String c1 (String c2 (String c3 (String c4 rest))) =>
      bind (index c1) (fun s1 =>
      bind (index c2) (fun s2 =>
      bind (Byte.of_N (octet1 s1 s2)) (fun x =>
      if Ascii.eqb c3 pad then
        if Ascii.eqb c4 pad then
          match rest with
          | EmptyString => Some [x]
          | String _ _ => None
          end
        else None
      else
        bind (index c3) (fun s3 =>
        bind (Byte.of_N (octet2 s2 s3)) (fun y =>
        if Ascii.eqb c4 pad then
          match rest with
          | EmptyString => Some [x; y]
          | String _ _ => None
          end
        else
          bind (index c4) (fun s4 =>
          bind (Byte.of_N (octet3 s3 s4)) (fun z =>
          bind (decode rest) (fun bs =>
          Some (x :: y :: z :: bs)))))))))
  | _ => None
  end.

End Base64.

(** ** The regular expression [/\{[\s\S]*\}/]

    [text.match(re)] for a non-global expression returns the leftmost match,
    and a greedy star first takes as many characters as it can and gives them
    back one by one until the rest of the pattern matches. *)

Module RegExp.

Definition openBrace : ascii := "{"%char.
Definition closeBrace : ascii := "}"%char.

(** [[\s\S]*\}] at the start of [s]: the longest way to consume characters
    and still end on a closing brace. The star tries the longer run first
    (the recursive call) and falls back to stopping here. *)
Fixpoint starThenClose (s : string) : option string :=
  match s with
  | EmptyString => None
  | String c s' =>
      match starThenClose s' with
      | Some m => Some (String c m)
      | None =>
          if Ascii.eqb c closeBrace then Some (String c EmptyString)
          else None
      end
  end.

(** The whole pattern anchored at the start of [s]. *)
Definition matchHere (s : string) : option string :=
  match s with
  | EmptyString => None
  | String c s' =>
      if Ascii.eqb c openBrace then
        option_map (String c) (starThenClose s')
      else None
  end.

(** [text.match(/\{[\s\S]*\}/)]: the start positions are tried from left to
    right; the result is [jsonMatch[0]], or [None] for [null]. *)
Fixpoint matchJson (s : string) : option string :=
  match matchHere s with
  | Some m => Some m
  | None =>
      match s with
      | EmptyString => None
      | String _ s' => matchJson s'
      end
  end.

End RegExp.

(** ** Data model *)

(** [ReceiptData], as the TypeScript type declares it. JSON numbers are
    IEEE 754 doubles. *)
Record ReceiptData := mkReceiptData {
  amount : option PrimFloat.float;
  date : option string;
  description : option string;
  items : option (list string);
  merchant : option string
}.

(** A value decoded by [JSON.parse]. A property that an object does not have
    reads as [undefined]; that is [None] where properties are looked up. *)
Local Unset Elimination Schemes.
Inductive JsValue :=
| JNull
| JBool (b : bool)
| JNumber (x : PrimFloat.float)
| JString (s : string)
| JArray (elements : list JsValue)
| JObject (properties : list (string * JsValue)).
Local Set Elimination Schemes.

(** The own properties of an object in the order of their creation, one
    entry per key. *)
Definition JsObject := list (string * JsValue).

(** A [File]: the declared MIME type and the content. *)
Record File := mkFile {
  name : string;
  type : string;
  bytes : list byte
}.

(** The [inlineData] part sent to the model; [data] is the second piece of a
    [split(",")], which is [undefined] ([None]) when there is no comma. *)
Record InlineData := mkInlineData {
  data : option string;
  mimeType : string
}.

(** A loaded pdf-lib document: the results of the two methods the component
    calls. [save] is [None] when serialisation rejects. *)
Record PDFDocument := mkPDFDocument {
  getPageCount : nat;
  save : option (list byte)
}.

(** Object URLs handed out by [URL.createObjectURL]; every call returns a
    fresh, non-empty URL, identified here by its serial number. *)
Definition ObjectURL := nat.

(** Exceptions. *)
Inductive Exn :=
| Error (message : string)      (* [new Error(message)] *)
| SyntaxError                   (* thrown by [JSON.parse] *)
| Rejected (origin : string)    (* raised inside a library or the callback *)
| TypeError.                    (* a call of something that is no function *)

(** The four state cells of the component. *)
Record Session := mkSession {
  isLoading : bool;
  error : option string;
  previewUrl : option ObjectURL;
  fileType : option string
}.

(** Observable effects, in program order. *)
Inductive Event :=
| SetIsLoading (b : bool)
| SetError (e : option string)
| SetPreviewUrl (u : option ObjectURL)
| SetFileType (t : option string)
| CreateObjectURL (u : ObjectURL)
| RevokeObjectURL (u : ObjectURL)
| GenerateContent (prompt : string) (part : InlineData)
| OnReceiptData (r : JsObject)
| ConsoleError (label : string) (e : Exn).

(** The session together with the browser state it touches. [objectUrls] are
    the URLs created and not yet revoked. *)
Record World := mkWorld {
  session : Session;
  objectUrls : list ObjectURL;
  nextObjectUrl : ObjectURL;
  trace : list Event
}.

(** What the component receives from outside: its props, the libraries and
    the engine.
    - [JSON_parse] is applied to a text that starts with an opening brace
      only, for which [JSON.parse] returns an object or throws ([None]);
    - [numberToString] and [stringToNumber] are the conversions of the
      engine between numbers and strings;
    - [useDropzone_acceptedFiles] is react-dropzone with the options of the
      component ([accept], [maxFiles: 1]): the files of a user's drop that
      it hands to [onDrop] as [acceptedFiles]. *)
Record Env := mkEnv {
  apiKey : option string;
  PDFDocument_load : list byte -> option PDFDocument;
  generateContent : string -> InlineData -> option string;
  JSON_parse : string -> option JsObject;
  onReceiptData_throws : JsObject -> bool;
  numberToString : PrimFloat.float -> string;
  stringToNumber : string -> PrimFloat.float;
  useDropzone_acceptedFiles : list File -> list File
}.

(** ** The monad of the component: state and exceptions *)

Inductive Completion (A : Type) :=
| Normal (a : A)
| Throw (e : Exn).

Arguments Throw {A} e.

Definition M (A : Type) : Type := World -> Completion A * World.

Definition ret {A : Type} (a : A) : M A := fun w => (Normal a, w).

Definition bind {A B : Type} (m : M A) (k : A -> M B) : M B :=
  fun w =>
    match m w with
    | (Normal a, w') => k a w'
    | (Throw e, w') => (Throw e, w')
    end.

Definition throw {A : Type} (e : Exn) : M A := fun w => (Throw e, w).

(** [try { m } catch (err) { h err }] *)
Definition tryCatch {A : Type} (m : M A) (h : Exn -> M A) : M A :=
  fun w =>
    match m w with
    | (Normal a, w') => (Normal a, w')
    | (Throw e, w') => h e w'
    end.

(** [try { m } finally { f }]: [f] runs on both exits; the completion of [m]
    is kept unless [f] itself throws. *)
Definition tryFinally {A : Type} (m : M A) (f : M unit) : M A :=
  fun w =>
    match m w with
    | (c, w') =>
        match f w' with
        | (Normal _, w'') => (c, w'')
        | (Throw e, w'') => (Throw e, w'')
        end
    end.

Declare Scope js_scope.
Delimit Scope js_scope with js.
Notation "x <- m ;; k" := (bind m (fun x => k))
  (at level 61, m at next level, right associativity) : js_scope.
Notation "m ;; k" := (bind m (fun _ => k))
  (at level 61, right associativity) : js_scope.
Local Open Scope js_scope.

Definition emit (e : Event) : M unit :=
  fun w => (Normal tt, mkWorld (session w) (objectUrls w) (nextObjectUrl w)
                               (trace w ++ [e])).

Definition modifySession (f : Session -> Session) : M unit :=
  fun w => (Normal tt, mkWorld (f (session w)) (objectUrls w)
                               (nextObjectUrl w) (trace w)).

Definition getSession : M Session := fun w => (Normal (session w), w).

Definition setIsLoading (b : bool) : M unit :=
  modifySession (fun s => mkSession b (error s) (previewUrl s) (fileType s)) ;;
  emit (SetIsLoading b).

Definition setError (e : option string) : M unit :=
  modifySession (fun s => mkSession (isLoading s) e (previewUrl s) (fileType s)) ;;
  emit (SetError e).

Definition setPreviewUrl (u : option ObjectURL) : M unit :=
  modifySession (fun s => mkSession (isLoading s) (error s) u (fileType s)) ;;
  emit (SetPreviewUrl u).

Definition setFileType (t : option string) : M unit :=
  modifySession (fun s => mkSession (isLoading s) (error s) (previewUrl s) t) ;;
  emit (SetFileType t).

Definition consoleError (label : string) (e : Exn) : M unit :=
  emit (ConsoleError label e).

(** [URL.createObjectURL(file)] *)
Definition createObjectURL (file : File) : M ObjectURL :=
  fun w =>
    let u := nextObjectUrl w in
    (Normal u, mkWorld (session w) (objectUrls w ++ [u]) (S u)
                       (trace w ++ [CreateObjectURL u])).

(** [URL.revokeObjectURL(u)] *)
Definition revokeObjectURL (u : ObjectURL) : M unit :=
  fun w =>
    (Normal tt, mkWorld (session w) (remove Nat.eq_dec u (objectUrls w))
                        (nextObjectUrl w) (trace w ++ [RevokeObjectURL u])).

(** ** Platform functions *)

(** [FileReader.readAsDataURL(file)]: the content as a [data:] URL with the
    declared type as media type. *)
Definition readAsDataURL (file : File) : string :=
  "data:" ++ type file ++ ";base64," ++ Base64.encode (bytes file).

(** pdf-lib's [pdfDoc.saveAsBase64({ dataUri: true })]: the serialised
    document in base64 behind a fixed header. *)
Definition saveAsBase64 (pdfDoc : PDFDocument) : M string :=
  match save pdfDoc with
  | Some saved => ret ("data:application/pdf;base64," ++ Base64.encode saved)
  | None => throw (Rejected "pdf-lib")
  end.

(** [file.arrayBuffer()] followed by [PDFDocument.load]. *)
Definition loadPdf (env : Env) (file : File) : M PDFDocument :=
  match PDFDocument_load env (bytes file) with
  | Some pdfDoc => ret pdfDoc
  | None => throw (Rejected "pdf-lib")
  end.

(** [model.generateContent([prompt, imagePart])] and [response.text()]. *)
Definition generateContentText (env : Env) (prompt : string)
    (imagePart : InlineData) : M string :=
  emit (GenerateContent prompt imagePart) ;;
  match generateContent env prompt imagePart with
  | Some text => ret text
  | None => throw (Rejected "generative-ai")
  end.

(** [JSON.parse(s) as ReceiptData]. The cast is not checked when the program
    runs: the value is whatever object the text denotes. *)
Definition parseJson (env : Env) (s : string) : M JsObject :=
  match JSON_parse env s with
  | Some receiptData => ret receiptData
  | None => throw SyntaxError
  end.

(** The call of the parent's callback. *)
Definition onReceiptData (env : Env) (receiptData : JsObject) : M unit :=
  emit (OnReceiptData receiptData) ;;
  if onReceiptData_throws env receiptData then throw (Rejected "onReceiptData")
  else ret tt.

(** ** The component *)

Definition LF : string := String (ascii_of_nat 10) EmptyString.

(** The instruction sent with every receipt. *)
Definition prompt : string :=
  "Analyze this receipt image and extract the following information in JSON format:" ++ LF ++
  "      - total amount (as a number without currency symbol)" ++ LF ++
  "      - date (in YYYY-MM-DD format)" ++ LF ++
  "      - merchant/store name" ++ LF ++
  "      - list of purchased items" ++ LF ++
  "      " ++ LF ++
  "      Return ONLY a valid JSON object with these fields: amount, date, merchant, items (as an array of strings). " ++ LF ++
  "      If you can't determine a value, omit that field from the JSON.".

Definition pdfType : string := "application/pdf".

(** The function that [useCallback(..., [previewUrl])] makes in a render in
    which the state cell [previewUrl] holds [captured]: the body of
    [clearPreview] reads that value, not the cell. *)
Definition clearPreviewOf (captured : option ObjectURL) : M unit :=
  match captured with
  | Some u =>
      revokeObjectURL u ;;
      setPreviewUrl None ;;
      setFileType None ;;
      setError None
  | None => ret tt
  end.

(** [clearPreview], as the button of the latest render calls it: the
    function made with the current value of the cell. *)
Definition clearPreview : M unit :=
  s <- getSession ;;
  clearPreviewOf (previewUrl s).

(** [fileToGenerativePart] *)
Definition fileToGenerativePart (env : Env) (file : File) : M InlineData :=
  if String.eqb (type file) pdfType then
    tryCatch
      (pdfDoc <- loadPdf env file ;;
       if Nat.eqb (getPageCount pdfDoc) 0 then throw (Error "PDF has no pages")
       else
         pngBytes <- saveAsBase64 pdfDoc ;;
         let base64Data := nth_error (JsString.split ","%char pngBytes) 1 in
         ret (mkInlineData base64Data pdfType))
      (fun err =>
         consoleError "Error processing PDF:" err ;;
         throw (Error "Failed to process PDF file"))
  else
    let dataUrl := readAsDataURL file in
    let base64Data := nth_error (JsString.split ","%char dataUrl) 1 in
    ret (mkInlineData base64Data (type file)).

(** The part of [processReceipt] that extracts the JSON text from the reply
    and decodes it. *)
Definition extractReceiptData (env : Env) (text : string) : M JsObject :=
  match RegExp.matchJson text with
  | None => throw (Error "Could not extract valid JSON from the response")
  | Some jsonMatch => parseJson env jsonMatch
  end.

Definition setDescription (d : option string) (r : ReceiptData) : ReceiptData :=
  mkReceiptData (amount r) (date r) d (items r) (merchant r).

(** [receiptData.items && receiptData.items.length > 0] *)
Definition hasItems (r : ReceiptData) : bool :=
  match items r with
  | Some xs => Nat.ltb 0 (List.length xs)
  | None => false
  end.

(** The part of [processReceipt] that fills in [description], on a record
    that has the shape [ReceiptData] declares; [describeReceipt] below is
    the same part on whatever object the reply denotes. *)
Definition deriveDescription (receiptData : ReceiptData) : ReceiptData :=
  if hasItems receiptData then
    let xs := match items receiptData with Some xs => xs | None => [] end in
    setDescription
      (Some (JsString.join ", " (JsString.slice0 3 xs)
             ++ (if Nat.ltb 3 (List.length xs) then "..." else EmptyString)))
      receiptData
  else if JsString.truthyOpt (merchant receiptData) then
    setDescription (merchant receiptData) receiptData
  else receiptData.

(** *** The same part on an object of any shape *)

(** [o.key] *)
Fixpoint getProperty (key : string) (o : JsObject) : option JsValue :=
  match o with
  | [] => None
  | (k, v) :: o' => if String.eqb k key then Some v else getProperty key o'
  end.

(** [o.key = v]: the property keeps its place when it exists and is added
    at the end otherwise. *)
Fixpoint setProperty (key : string) (v : JsValue) (o : JsObject) : JsObject :=
  match o with
  | [] => [(key, v)]
  | (k, v0) :: o' =>
      if String.eqb k key then (k, v) :: o'
      else (k, v0) :: setProperty key v o'
  end.

(** The truthiness of a value: [null], [false], zero, [NaN] and the empty
    string are falsy. *)
Definition truthyValue (v : JsValue) : bool :=
  match v with
  | JNull => false
  | JBool b => b
  | JNumber x =>
      negb (PrimFloat.eqb x PrimFloat.zero || negb (PrimFloat.eqb x x))
  | JString s => JsString.truthy s
  | JArray _ | JObject _ => true
  end.

(** The string that [Array.prototype.join] puts for an element: nothing for
    [null], and for an array its own elements joined by a comma. *)
Fixpoint elementString (env : Env) (v : JsValue) : string :=
  match v with
  | JNull => EmptyString
  | JBool true => "true"
  | JBool false => "false"
  | JNumber x => numberToString env x
  | JString s => s
  | JArray xs => String.concat "," (map (elementString env) xs)
  | JObject _ => "[object Object]"
  end.

(** [xs.join(sep)] on an array of any values. *)
Definition joinValues (env : Env) (sep : string) (xs : list JsValue) : string :=
  String.concat sep (map (elementString env) xs).

(** [v > 0]: the value is converted to a number, an array or an object
    through its string. *)
Definition greaterThanZero (env : Env) (v : JsValue) : bool :=
  match v with
  | JNull => false
  | JBool b => b
  | JNumber x => PrimFloat.ltb PrimFloat.zero x
  | JString s => PrimFloat.ltb PrimFloat.zero (stringToNumber env s)
  | JArray xs =>
      PrimFloat.ltb PrimFloat.zero
        (stringToNumber env (joinValues env "," xs))
  | JObject _ => false
  end.

(** [items.length > 0]: strings and arrays have a length; an object has the
    property of that name, if any; nothing else has one. *)
Definition lengthPositive (env : Env) (items : JsValue) : bool :=
  match items with
  | JString s => Nat.ltb 0 (String.length s)
  | JArray xs => Nat.ltb 0 (List.length xs)
  | JObject o =>
      match getProperty "length" o with
      | Some v => greaterThanZero env v
      | None => false
      end
  | JNull | JBool _ | JNumber _ => false
  end.

(** [receiptData.items && receiptData.items.length > 0] *)
Definition hasItemsValue (env : Env) (receiptData : JsObject) : bool :=
  match getProperty "items" receiptData with
  | Some items => truthyValue items && lengthPositive env items
  | None => false
  end.

(** The statements of [processReceipt] between [JSON.parse] and the call of
    the parent: the object is updated in place. Only an array has a [slice]
    whose result has a [join]; on a string [slice(0, 3)] returns a string,
    and an object has no method [slice]: calling what is not a function
    throws. *)
Definition describeReceipt (env : Env) (receiptData : JsObject)
    : Completion JsObject :=
  if hasItemsValue env receiptData then
    match getProperty "items" receiptData with
    | Some (JArray xs) =>
        Normal
          (setProperty "description"
             (JString (joinValues env ", " (JsString.slice0 3 xs)
                       ++ (if Nat.ltb 3 (List.length xs)
                           then "..." else EmptyString)))
             receiptData)
    | _ => Throw TypeError
    end
  else
    match getProperty "merchant" receiptData with
    | Some merchant =>
        if truthyValue merchant
        then Normal (setProperty "description" merchant receiptData)
        else Normal receiptData
    | None => Normal receiptData
    end.

(** *** Objects of the declared shape *)

Definition asNumber (v : JsValue) : option PrimFloat.float :=
  match v with JNumber x => Some x | _ => None end.

Definition asString (v : JsValue) : option string :=
  match v with JString s => Some s | _ => None end.

Fixpoint asStrings (vs : list JsValue) : option (list string) :=
  match vs with
  | [] => Some []
  | v :: vs' =>
      match asString v, asStrings vs' with
      | Some s, Some ss => Some (s :: ss)
      | _, _ => None
      end
  end.

Definition asStringArray (v : JsValue) : option (list string) :=
  match v with JArray vs => asStrings vs | _ => None end.

(** An optional field [key?: T]: absent, or present with a value of type
    [T]; [None] when the value has another type. *)
Definition readField {A : Type} (decode : JsValue -> option A) (key : string)
    (o : JsObject) : option (option A) :=
  match getProperty key o with
  | None => Some None
  | Some v => option_map Some (decode v)
  end.

(** The object read at the type [ReceiptData], when it has that shape:
    every one of the five fields is absent or has its declared type. *)
Definition asReceiptData (o : JsObject) : option ReceiptData :=
  match readField asNumber "amount" o,
        readField asString "date" o,
        readField asString "description" o,
        readField asStringArray "items" o,
        readField asString "merchant" o with
  | Some a, Some d, Some de, Some i, Some m => Some (mkReceiptData a d de i m)
  | _, _, _, _, _ => None
  end.

Definition field {A : Type} (key : string) (inject : A -> JsValue)
    (x : option A) : JsObject :=
  match x with
  | Some a => [(key, inject a)]
  | None => []
  end.

(** An object that reads as the given record. *)
Definition toObject (r : ReceiptData) : JsObject :=
  (field "amount" JNumber (amount r)
   ++ field "date" JString (date r)
   ++ field "items" (fun ss => JArray (map JString ss)) (items r)
   ++ field "merchant" JString (merchant r)
   ++ field "description" JString (description r))%list.

(** A completion as a computation that leaves the world alone. *)
Definition complete {A : Type} (c : Completion A) : M A := fun w => (c, w).

Definition apiKeyMessage : string :=
  "API key is not configured. Please add a Gemini API key.".

Definition processFailedMessage : string :=
  "Failed to process receipt. Please try again or enter details manually.".

(** The [catch] block of [processReceipt]. *)
Definition processReceiptCatch (err : Exn) : M unit :=
  consoleError "Error processing receipt:" err ;;
  setError (Some processFailedMessage).

(** [processReceipt]. The construction of the client and of the model
    object ([new GoogleGenerativeAI(apiKey)], [getGenerativeModel]) sends
    nothing and changes nothing, and is left out. *)
Definition processReceipt (env : Env) (file : File) : M unit :=
  if negb (JsString.truthyOpt (apiKey env)) then
    setError (Some apiKeyMessage) ;;
    setIsLoading false ;;
    ret tt
  else
    tryFinally
      (tryCatch
         (setIsLoading true ;;
          setError None ;;
          imagePart <- fileToGenerativePart env file ;;
          text <- generateContentText env prompt imagePart ;;
          receiptData <- extractReceiptData env text ;;
          described <- complete (describeReceipt env receiptData) ;;
          onReceiptData env described)
         processReceiptCatch)
      (setIsLoading false).

Definition unsupportedMessage : string := "Please upload an image or PDF file".

Definition fileFailedMessage : string :=
  "Failed to process file. Please try again or enter details manually.".

(** The test of [onDrop] on the declared type. *)
Definition supportedType (t : string) : bool :=
  JsString.startsWith "image/" t || String.eqb t pdfType.

(** The [catch] block of [onDrop]. *)
Definition onDropCatch (err : Exn) : M unit :=
  consoleError "Error processing file:" err ;;
  setError (Some fileFailedMessage).

(** [onDrop]. The value returned is the function [() =>
    URL.revokeObjectURL(objectUrl)], given here by the URL it closes over
    ([None] for the two plain [return]s); nothing in the component calls
    it. *)
Definition onDrop (env : Env) (acceptedFiles : list File) : M (option ObjectURL) :=
  match acceptedFiles with
  | [] => ret None
  | file :: _ =>
      if negb (JsString.startsWith "image/" (type file))
         && negb (String.eqb (type file) pdfType) then
        setError (Some unsupportedMessage) ;;
        ret None
      else
        objectUrl <- createObjectURL file ;;
        setPreviewUrl (Some objectUrl) ;;
        setFileType (Some (type file)) ;;
        tryCatch (processReceipt env file) onDropCatch ;;
        ret (Some objectUrl)
  end.

(** A user's drop on the zone: react-dropzone sorts the files and calls
    [onDrop] with those it accepts, also when there is none. *)
Definition dropOnZone (env : Env) (files : list File) : M (option ObjectURL) :=
  onDrop env (useDropzone_acceptedFiles env files).

(** ** Sessions as histories of user actions *)

Inductive Action :=
| Drop (acceptedFiles : list File)
| Clear.

Definition initialSession : Session := mkSession false None None None.

Definition initialWorld : World := mkWorld initialSession [] 0 [].

(** One user action, run to completion: the next action starts when the
    promise of the previous one has settled. *)
Definition step (env : Env) (a : Action) (w : World) : World :=
  match a with
  | Drop acceptedFiles => snd (onDrop env acceptedFiles w)
  | Clear => snd (clearPreview w)
  end.

Definition run (env : Env) (actions : list Action) (w : World) : World :=
  fold_left (fun w a => step env a w) actions w.

(** Predicates on events, for counting them in a trace. *)
Definition isRevoke (u : ObjectURL) (e : Event) : bool :=
  match e with RevokeObjectURL v => Nat.eqb u v | _ => false end.

Definition isCallback (e : Event) : bool :=
  match e with OnReceiptData _ => true | _ => false end.

Definition isModelCall (e : Event) : bool :=
  match e with GenerateContent _ _ => true | _ => false end.

Definition entersLoading (e : Event) : bool :=
  match e with SetIsLoading true => true | _ => false end.

Definition count (p : Event -> bool) (t : list Event) : nat :=
  List.length (filter p t).

(** The three stages of the extraction inside [processReceipt], in the order
    the function runs them: encode the file, call the model, extract and
    decode the reply. *)
Definition extractionPipeline (env : Env) (file : File) : M JsObject :=
  imagePart <- fileToGenerativePart env file ;;
  text <- generateContentText env prompt imagePart ;;
  extractReceiptData env text.

(** The world in which the pipeline starts: after [setIsLoading(true)] and
    [setError(null)]. *)
Definition startLoading : M unit :=
  setIsLoading true ;; setError None.

(** A world after some more events were recorded and nothing else changed. *)
Definition logged (w : World) (evs : list Event) : World :=
  mkWorld (session w) (objectUrls w) (nextObjectUrl w) (trace w ++ evs).

(** Events that only report: a console line or a request to the model. *)
Definition isReport (e : Event) : bool :=
  match e with
  | ConsoleError _ _ | GenerateContent _ _ => true
  | _ => false
  end.

(** Events that leave the preview and the object-URL store alone. *)
Definition keepsPreview (e : Event) : bool :=
  match e with
  | CreateObjectURL _ | RevokeObjectURL _ | SetPreviewUrl _ | SetFileType _ =>
      false
  | _ => true
  end.

(** The world of [onDrop] once the preview is in place, before
    [processReceipt] runs. *)
Definition previewing (file : File) (w : World) : World :=
  let u := nextObjectUrl w in
  mkWorld (mkSession (isLoading (session w)) (error (session w)) (Some u)
                     (Some (type file)))
          (objectUrls w ++ [u]) (S u)
          (trace w ++ [CreateObjectURL u; SetPreviewUrl (Some u);
                       SetFileType (Some (type file))]).

(** A computation is confined to [R] when every run relates the world it
    starts in to the world it ends in. *)
Definition confined (R : World -> World -> Prop) {A : Type} (m : M A) : Prop :=
  forall w, R w (snd (m w)).

(** Only reports were recorded. *)
Definition reportsOnly (w w' : World) : Prop :=
  exists evs, w' = logged w evs /\ forallb isReport evs = true.

(** The preview, its type and the object-URL store are as before, and no
    recorded event concerns them. *)
Definition previewKept (w w' : World) : Prop :=
  previewUrl (session w') = previewUrl (session w) /\
  fileType (session w') = fileType (session w) /\
  objectUrls w' = objectUrls w /\
  nextObjectUrl w' = nextObjectUrl w /\
  exists evs, trace w' = (trace w ++ evs)%list /\
              forallb keepsPreview evs = true.

(** An object URL that is still allocated, is not the preview any more and
    was never revoked. *)
Definition leaked (u : ObjectURL) (w : World) : Prop :=
  In u (objectUrls w) /\
  previewUrl (session w) <> Some u /\
  u < nextObjectUrl w /\
  count (isRevoke u) (trace w) = 0.

(** ** Reference definitions, following the wording of the specification *)

(** The span from the first opening brace to the last closing brace of the
    text, when the former comes before the latter. *)
Definition spec_maximalSpan (text : string) : option string :=
  match JsString.indexOf RegExp.openBrace text,
        JsString.lastIndexOf RegExp.closeBrace text with
  | Some i, Some j =>
      if Nat.ltb i j then Some (String.substring i (j - i + 1) text) else None
  | _, _ => None
  end.

(** The MIME types the specification lists as accepted. *)
Definition spec_acceptedTypes : list string :=
  ["image/jpeg"; "image/jpg"; "image/png"; "image/heic"; "image/heif";
   "application/pdf"].

(** The image types among them. *)
Definition spec_acceptedImageTypes : list string :=
  ["image/jpeg"; "image/jpg"; "image/png"; "image/heic"; "image/heif"].

(** ** Concrete inputs used in examples *)

Module Examples.

Definition bytesOf (s : string) : list byte :=
  map byte_of_ascii (list_ascii_of_string s).

(** [s.endsWith(suffix)] *)
Definition endsWith (suffix s : string) : bool :=
  let n := String.length s in
  let k := String.length suffix in
  Nat.leb k n && String.eqb (String.substring (n - k) k s) suffix.

(** The drop zone on the files of these examples: a file passes when its
    type is an image type or [application/pdf], or when its name ends in
    one of the extensions the component lists; more than one file at once
    is too many, and none passes. *)
Definition acceptedFiles (files : list File) : list File :=
  match files with
  | [file] =>
      if JsString.startsWith "image/" (type file)
         || String.eqb (type file) "application/pdf"
         || existsb (fun ext => endsWith ext (name file))
              [".jpeg"; ".jpg"; ".png"; ".heic"; ".heif"; ".pdf"]
      then [file] else []
  | _ => []
  end.

(** Conversions for the numbers of these examples. *)
Definition printNumber (x : PrimFloat.float) : string :=
  if PrimFloat.eqb x PrimFloat.one then "1" else "0".

Definition readNumber (s : string) : PrimFloat.float :=
  if String.eqb s "1" then PrimFloat.one else PrimFloat.zero.

(** No API key, and libraries that reject everything. *)
Definition envNoKey : Env :=
  mkEnv None (fun _ => None) (fun _ _ => None) (fun _ => None)
        (fun _ => false) printNumber readNumber acceptedFiles.

Definition milkReceipt : ReceiptData :=
  mkReceiptData None (Some "2024-05-01") None
                (Some ["milk"; "eggs"; "bread"; "soap"]) (Some "Acme").

(** A key, a PDF library for which every document has no page, a model
    that answers with prose around one JSON object, and a decoder that
    knows that object only. *)
Definition envToy : Env :=
  mkEnv (Some "key")
        (fun _ => Some (mkPDFDocument 0 (Some [])))
        (fun _ _ => Some "Here you go: {items} Bye")
        (fun s => if String.eqb s "{items}"
                  then Some (toObject milkReceipt) else None)
        (fun _ => false) printNumber readNumber acceptedFiles.

(** The same with a PDF library that loads every buffer as a one-page
    document and serialises it to three fixed octets. *)
Definition envOnePage : Env :=
  mkEnv (Some "key")
        (fun _ => Some (mkPDFDocument 1 (Some (bytesOf "pdf"))))
        (fun _ _ => Some "Here you go: {items} Bye")
        (fun s => if String.eqb s "{items}"
                  then Some (toObject milkReceipt) else None)
        (fun _ => false) printNumber readNumber acceptedFiles.

(** A model whose reply holds an object in which [items] is a string. *)
Definition envItemsString : Env :=
  mkEnv (Some "key")
        (fun _ => None)
        (fun _ _ => Some "{items: milk}")
        (fun s => if String.eqb s "{items: milk}"
                  then Some [("items", JString "milk")] else None)
        (fun _ => false) printNumber readNumber acceptedFiles.

Definition pngFile : File := mkFile "a.png" "image/png" (bytesOf "abc").
Definition jpgFile : File := mkFile "b.jpg" "image/jpeg" (bytesOf "wxyz").
Definition gifFile : File := mkFile "c.gif" "image/gif" (bytesOf "GIF89a").
Definition pdfFile : File := mkFile "d.pdf" "application/pdf" (bytesOf "%PDF").

(** A file with the extension of a PDF and the declared type of a text. *)
Definition txtFile : File := mkFile "e.pdf" "text/plain" (bytesOf "hello").

(** A plain text file. *)
Definition notesFile : File := mkFile "notes.txt" "text/plain" (bytesOf "note").

(** A reply that carries a description of its own and nothing to derive
    one from. *)
Definition describedReceipt : ReceiptData :=
  mkReceiptData None None (Some "tea") None None.

(** A reply whose merchant is the empty string. *)
Definition blankMerchantReceipt : ReceiptData :=
  mkReceiptData None None None None (Some EmptyString).

End Examples.

(** ** What the component renders *)

(** The one event handler the component writes itself:
    [(e) => { e.stopPropagation(); clearPreview(); }]. *)
Inductive Handler :=
| StopPropagationThenClearPreview.

Inductive Attr :=
| ClassName (c : string)
| AriaLabel (s : string)
| Alt (s : string)
| Src (u : ObjectURL)
| OnClick (h : Handler)
| Spread (props : string).   (* [{...getRootProps()}], [{...getInputProps()}] *)

(** The element tree returned by the component; icons are elements named
    after their component. *)
Local Unset Elimination Schemes.
Inductive Node :=
| Element (tag : string) (attrs : list Attr) (children : list Node)
| Text (s : string).
Local Set Elimination Schemes.

(** The [return (...)] of the component. [cn] is the class-name helper the
    component imports, [isDragActive] comes from [useDropzone]. *)
Definition render (cn : string -> string -> string) (isDragActive : bool)
    (s : Session) : Node :=
  Element "div" [ClassName "mb-4"]
    ([Element "div"
        [Spread "getRootProps";
         ClassName
           (cn "border-2 border-dashed rounded-lg p-4 text-center cursor-pointer transition-colors"
               (if isDragActive
                then "border-blue-500 bg-blue-50"
                else "border-gray-300 hover:border-blue-400 hover:bg-gray-50"))]
        [Element "input" [Spread "getInputProps"] [];
         if isLoading s then
           Element "div" [ClassName "py-4 flex flex-col items-center"]
             [Element "Loader2"
                [ClassName "h-8 w-8 text-blue-500 animate-spin mb-2"] [];
              Element "p" [ClassName "text-sm text-gray-600"]
                [Text "Processing receipt..."]]
         else
           match previewUrl s with
           | Some url =>
               Element "div" [ClassName "relative"]
                 [Element "button"
                    [OnClick StopPropagationThenClearPreview;
                     ClassName "absolute -top-2 -right-2 bg-gray-200 hover:bg-gray-300 rounded-full p-1 z-10 transition-colors";
                     AriaLabel "Remove receipt"]
                    [Element "X" [ClassName "h-4 w-4 text-gray-700"] []];
                  if match fileType s with
                     | Some t => String.eqb t "application/pdf"
                     | None => false
                     end
                  then
                    Element "div"
                      [ClassName "flex flex-col items-center justify-center bg-gray-50 p-4 rounded-md border border-gray-200 max-h-40 mx-auto"]
                      [Element "FileText"
                         [ClassName "h-16 w-16 text-blue-500 mb-2"] [];
                       Element "p"
                         [ClassName "text-sm font-medium text-gray-700"]
                         [Text "PDF Receipt"]]
                  else
                    Element "img"
                      [Src url; Alt "Receipt preview";
                       ClassName "max-h-40 mx-auto rounded-md"] [];
                  Element "div" [ClassName "mt-2 text-sm text-gray-600"]
                    [match error s with
                     | Some (String c m) =>
                         Element "p"
                           [ClassName "text-red-500 flex items-center justify-center"]
                           [Element "AlertCircle" [ClassName "h-4 w-4 mr-1"] [];
                            Text (String c m)]
                     | Some EmptyString | None =>
                         Element "p" [] [Text "Click or drag to replace"]
                     end]]
           | None =>
               Element "div" [ClassName "py-4"]
                 [Element "Receipt"
                    [ClassName "h-8 w-8 text-gray-400 mx-auto mb-2"] [];
                  Element "p" [ClassName "text-sm font-medium text-gray-700"]
                    [Text "Scan Receipt"];
                  Element "p" [ClassName "text-xs text-gray-500 mt-1"]
                    [Text "Drag & drop a receipt image or PDF file, or click to browse"]]
           end]]
     ++ (match error s, previewUrl s with
         | Some (String c m), None =>
             [Element "p"
                [ClassName "mt-2 text-xs text-red-500 flex items-center"]
                [Element "AlertCircle" [ClassName "h-3 w-3 mr-1"] [];
                 Text (String c m)]]
         | _, _ => []
         end))%list.

(** How many elements of a tree carry a given tag. *)
Fixpoint countTag (tag : string) (n : Node) : nat :=
  match n with
  | Text _ => 0
  | Element t _ children =>
      (if String.eqb t tag then 1 else 0)
      + list_sum (map (countTag tag) children)
  end.

Definition srcOf (attrs : list Attr) : list ObjectURL :=
  flat_map (fun a => match a with Src u => [u] | _ => [] end) attrs.

(** The object URLs that the [img] elements of a tree load. *)
Fixpoint imgSources (n : Node) : list ObjectURL :=
  match n with
  | Text _ => []
  | Element t attrs children =>
      ((if String.eqb t "img" then srcOf attrs else [])
       ++ flat_map imgSources children)%list
  end.

(** The handlers attached to the [button] elements of a tree. *)
Definition clickOf (attrs : list Attr) : list Handler :=
  flat_map (fun a => match a with OnClick h => [h] | _ => [] end) attrs.

Fixpoint buttonHandlers (n : Node) : list Handler :=
  match n with
  | Text _ => []
  | Element t attrs children =>
      ((if String.eqb t "button" then clickOf attrs else [])
       ++ flat_map buttonHandlers children)%list
  end.

(** ** More vocabulary for the properties *)

(** The [try] block of [processReceipt] after the two state updates that
    open it. *)
Definition tryBlock (env : Env) (file : File) : M unit :=
  receiptData <- extractionPipeline env file ;;
  described <- complete (describeReceipt env receiptData) ;;
  onReceiptData env described.

(** The error a run of [processReceipt] ends with. *)
Definition processReceiptError (env : Env) (file : File) (w : World)
    : option string :=
  if JsString.truthyOpt (apiKey env) then
    match fst (tryBlock env file (snd (startLoading w))) with
    | Normal _ => None
    | Throw _ => Some processFailedMessage
    end
  else Some apiKeyMessage.

(** The session is as before. *)
Definition sameSession (w w' : World) : Prop := session w' = session w.

(** Only console lines were recorded. *)
Definition isConsole (e : Event) : bool :=
  match e with ConsoleError _ _ => true | _ => false end.

Definition consoleOnly (w w' : World) : Prop :=
  exists evs, w' = logged w evs /\ forallb isConsole evs = true.

(** Drops of a file that [onDrop] gives a preview. *)
Definition isSupportedDrop (a : Action) : bool :=
  match a with
  | Drop (file :: _) => supportedType (type file)
  | Drop [] | Clear => false
  end.

Definition supportedDrops (actions : list Action) : nat :=
  List.length (filter isSupportedDrop actions).

Definition isClear (a : Action) : bool :=
  match a with Clear => true | Drop _ => false end.

(** What holds of the session and the object-URL store between two user
    actions. *)
Definition wellFormed (w : World) : Prop :=
  isLoading (session w) = false /\
  (previewUrl (session w) = None <-> fileType (session w) = None) /\
  (forall u, previewUrl (session w) = Some u -> In u (objectUrls w)) /\
  (forall u, In u (objectUrls w) -> u < nextObjectUrl w) /\
  NoDup (objectUrls w).

(** How revocations relate to the object-URL store. *)
Definition revokedOnce (w : World) : Prop :=
  forall u,
    (In u (objectUrls w) -> count (isRevoke u) (trace w) = 0) /\
    (nextObjectUrl w <= u -> count (isRevoke u) (trace w) = 0) /\
    count (isRevoke u) (trace w) <= 1.

(** * Properties *)

Unset Implicit Arguments.
Local Open Scope list_scope.

(** ** Base64 *)

Module Base64Facts.
Import Base64.
Local Open Scope N_scope.

Ltac div_lia := zify; Z.to_euclidean_division_equations; lia.

Lemma below_64 (P : N -> bool) :
  forallb P (map N.of_nat (seq 0 64)) = true ->
  forall n, n < 64 -> P n = true.
Proof.
  intros H n Hn. rewrite forallb_forall in H. apply H.
  rewrite <- (N2Nat.id n). apply in_map. apply in_seq. lia.
Qed.

Lemma index_char n : n < 64 -> index (char n) = Some n.
Proof.
  intros Hn.
  apply (below_64 (fun n => match index (char n) with
                            | Some m => N.eqb m n
                            | None => false
                            end)) in Hn.
  - destruct (index (char n)) as [m|]; [|discriminate].
    apply N.eqb_eq in Hn. congruence.
  - vm_compute. reflexivity.
Qed.

Lemma char_not_pad n : n < 64 -> Ascii.eqb (char n) pad = false.
Proof.
  intros Hn.
  apply (below_64 (fun n => negb (Ascii.eqb (char n) pad))) in Hn.
  - now apply negb_true_iff in Hn.
  - vm_compute. reflexivity.
Qed.

Lemma char_not_comma n : n < 64 -> Ascii.eqb (char n) ","%char = false.
Proof.
  intros Hn.
  apply (below_64 (fun n => negb (Ascii.eqb (char n) ","%char))) in Hn.
  - now apply negb_true_iff in Hn.
  - vm_compute. reflexivity.
Qed.

Lemma octet1_sextets a b : b < 256 -> octet1 (sextet1 a) (sextet2 a b) = a.
Proof. unfold octet1, sextet1, sextet2. intros. div_lia. Qed.

Lemma octet2_sextets a b c :
  b < 256 -> c < 256 -> octet2 (sextet2 a b) (sextet3 b c) = b.
Proof. unfold octet2, sextet2, sextet3. intros. div_lia. Qed.

Lemma octet3_sextets b c : c < 256 -> octet3 (sextet3 b c) (sextet4 c) = c.
Proof. unfold octet3, sextet3, sextet4. intros. div_lia. Qed.

Lemma sextet1_lt a : a < 256 -> sextet1 a < 64.
Proof. unfold sextet1. intros. div_lia. Qed.

Lemma sextet2_lt a b : b < 256 -> sextet2 a b < 64.
Proof. unfold sextet2. intros. div_lia. Qed.

Lemma sextet3_lt b c : c < 256 -> sextet3 b c < 64.
Proof. unfold sextet3. intros. div_lia. Qed.

Lemma sextet4_lt c : sextet4 c < 64.
Proof. unfold sextet4. intros. div_lia. Qed.

Lemma to_N_lt x : Byte.to_N x < 256.
Proof. pose proof (Byte.to_N_bounded x). lia. Qed.

(** Lists three elements at a time, as [encode] consumes them. *)
Lemma list_ind3 (A : Type) (P : list A -> Prop) :
  P [] -> (forall x, P [x]) -> (forall x y, P [x; y]) ->
  (forall x y z rest, P rest -> P (x :: y :: z :: rest)) ->
  forall l, P l.
Proof.
  intros H0 H1 H2 H3.
  fix IH 1. intros [|x [|y [|z rest]]];
    [apply H0 | apply H1 | apply H2 | apply H3; apply IH].
Qed.

Lemma decode_group c1 c2 c3 c4 rest :
  decode (String c1 (String c2 (String c3 (String c4 rest)))) =
    bind (index c1) (fun s1 =>
    bind (index c2) (fun s2 =>
    bind (Byte.of_N (octet1 s1 s2)) (fun x =>
    if Ascii.eqb c3 pad then
      if Ascii.eqb c4 pad then
        match rest with
        | EmptyString => Some [x]
        | String _ _ => None
        end
      else None
    else
      bind (index c3) (fun s3 =>
      bind (Byte.of_N (octet2 s2 s3)) (fun y =>
      if Ascii.eqb c4 pad then
        match rest with
        | EmptyString => Some [x; y]
        | String _ _ => None
        end
      else
        bind (index c4) (fun s4 =>
        bind (Byte.of_N (octet3 s3 s4)) (fun z =>
        bind (decode rest) (fun bs =>
        Some (x :: y :: z :: bs))))))))).
Proof. reflexivity. Qed.

Ltac sextet_bound :=
  first [apply sextet1_lt | apply sextet2_lt | apply sextet3_lt
        | apply sextet4_lt];
  try apply to_N_lt; try lia.

Ltac sextets :=
  repeat first
    [ rewrite index_char by sextet_bound
    | rewrite char_not_pad by sextet_bound
    | rewrite octet1_sextets by (try apply to_N_lt; lia)
    | rewrite octet2_sextets by (try apply to_N_lt; lia)
    | rewrite octet3_sextets by (try apply to_N_lt; lia)
    | rewrite Byte.of_to_N
    | progress cbn [bind] ].

(** Decoding undoes encoding, for every sequence of octets. *)
Lemma decode_encode bs : decode (encode bs) = Some bs.
Proof.
  induction bs as [|x|x y|x y z rest IH] using list_ind3.
  - reflexivity.
  - cbn [encode]. rewrite decode_group. sextets.
    rewrite Ascii.eqb_refl. reflexivity.
  - cbn [encode]. rewrite decode_group. sextets.
    rewrite Ascii.eqb_refl. reflexivity.
  - cbn [encode]. rewrite decode_group. sextets.
    rewrite IH. reflexivity.
Qed.

(** No comma in base64 text. *)
Lemma encode_no_comma bs : JsString.occurs ","%char (encode bs) = false.
Proof.
  induction bs as [|x|x y|x y z rest IH] using list_ind3;
    cbn [encode JsString.occurs];
    repeat rewrite char_not_comma by sextet_bound;
    auto.
Qed.

End Base64Facts.

(** ** Strings *)

Module JsStringFacts.
Import JsString.

Lemma append_assoc (a b c : string) : ((a ++ b) ++ c = a ++ (b ++ c))%string.
Proof.
  induction a as [|x a IH]; cbn [append]; [reflexivity|]. now rewrite IH.
Qed.

Lemma append_empty (a : string) : (a ++ EmptyString)%string = a.
Proof.
  induction a as [|x a IH]; cbn [append]; [reflexivity|]. now rewrite IH.
Qed.

Lemma occurs_append c a b :
  occurs c (a ++ b)%string = occurs c a || occurs c b.
Proof.
  induction a as [|x a IH]; cbn [occurs append]; [reflexivity|].
  rewrite IH. apply orb_assoc.
Qed.

Lemma occurs_middle c a b : occurs c (a ++ String c b)%string = true.
Proof.
  induction a as [|x a IH]; cbn [append occurs].
  - now rewrite Ascii.eqb_refl.
  - rewrite IH. apply orb_true_r.
Qed.

(** A piece without separator in front of a separator is the first piece. *)
Lemma split_prefix sep p t :
  occurs sep p = false ->
  split sep (p ++ String sep t)%string = p :: split sep t.
Proof.
  induction p as [|c p IH]; cbn [occurs append split]; intros H.
  - rewrite Ascii.eqb_refl. reflexivity.
  - apply orb_false_iff in H. destruct H as [Hc Hp].
    rewrite Hc. rewrite IH by assumption. reflexivity.
Qed.

Lemma split_none sep s : occurs sep s = false -> split sep s = [s].
Proof.
  induction s as [|c s IH]; cbn [occurs split]; intros H; [reflexivity|].
  apply orb_false_iff in H. destruct H as [Hc Hs].
  rewrite Hc. rewrite IH by assumption. reflexivity.
Qed.

(** The second piece of [header , payload] is the payload when neither
    contains a comma. *)
Lemma split_header_payload header payload :
  occurs ","%char header = false ->
  occurs ","%char payload = false ->
  nth_error (split ","%char (header ++ String ","%char payload)%string) 1
  = Some payload.
Proof.
  intros Hh Hp. rewrite split_prefix by assumption.
  rewrite split_none by assumption. reflexivity.
Qed.

End JsStringFacts.

(** ** The regular expression *)

Module RegExpFacts.
Import JsString RegExp.

Lemma substring_0_0 s : substring 0 0 s = EmptyString.
Proof. destruct s; reflexivity. Qed.

Lemma matchJson_cons c s :
  matchJson (String c s) =
    match matchHere (String c s) with
    | Some m => Some m
    | None => matchJson s
    end.
Proof. reflexivity. Qed.

(** The greedy star followed by the closing brace stops at the last closing
    brace. *)
Lemma starThenClose_last s :
  starThenClose s =
    option_map (fun j => substring 0 (S j) s) (lastIndexOf closeBrace s).
Proof.
  induction s as [|c s IH]; [reflexivity|].
  cbn [starThenClose lastIndexOf]. rewrite IH.
  destruct (lastIndexOf closeBrace s) as [j|]; cbn [option_map].
  - reflexivity.
  - destruct (Ascii.eqb c closeBrace); cbn [option_map]; [|reflexivity].
    cbn [substring]. now rewrite substring_0_0.
Qed.

Lemma lastIndexOf_cons_none a c s :
  lastIndexOf a (String c s) = None -> lastIndexOf a s = None.
Proof.
  cbn [lastIndexOf]. destruct (lastIndexOf a s); [discriminate|reflexivity].
Qed.

(** Without a closing brace there is no match, wherever the match starts. *)
Lemma matchJson_no_close s :
  lastIndexOf closeBrace s = None -> matchJson s = None.
Proof.
  induction s as [|c s IH]; intros H; [reflexivity|].
  pose proof (lastIndexOf_cons_none _ _ _ H) as Hs.
  rewrite matchJson_cons. cbn [matchHere].
  rewrite starThenClose_last, Hs. cbn [option_map].
  destruct (Ascii.eqb c openBrace); auto.
Qed.

(** The match of the regular expression is the span from the first opening
    brace to the last closing brace. *)
Lemma matchJson_maximalSpan text : matchJson text = spec_maximalSpan text.
Proof.
  unfold spec_maximalSpan.
  induction text as [|c s IH]; [reflexivity|].
  rewrite matchJson_cons. cbn [matchHere indexOf lastIndexOf].
  destruct (Ascii.eqb c openBrace) eqn:Hopen.
  - apply Ascii.eqb_eq in Hopen. subst c.
    rewrite starThenClose_last.
    destruct (lastIndexOf closeBrace s) as [j|] eqn:Hlast; cbn [option_map].
    + replace (S j - 0 + 1) with (S (S j)) by lia. reflexivity.
    + cbn. apply matchJson_no_close. assumption.
  - rewrite IH.
    destruct (indexOf openBrace s) as [i|]; cbn [option_map]; [|reflexivity].
    destruct (lastIndexOf closeBrace s) as [j|].
    + change (Nat.ltb (S i) (S j)) with (Nat.ltb i j).
      replace (S j - S i + 1) with (j - i + 1) by lia. reflexivity.
    + destruct (Ascii.eqb c closeBrace); reflexivity.
Qed.

Local Open Scope string_scope.

Lemma starThenClose_none s :
  starThenClose s = None -> occurs closeBrace s = false.
Proof.
  induction s as [|c s IH]; cbn [starThenClose occurs]; [reflexivity|].
  destruct (starThenClose s); [discriminate|].
  destruct (Ascii.eqb c closeBrace); [discriminate|]. intros _. now apply IH.
Qed.

Lemma starThenClose_absent s :
  occurs closeBrace s = false -> starThenClose s = None.
Proof.
  induction s as [|c s IH]; cbn [starThenClose occurs]; [reflexivity|].
  intros H. apply orb_false_iff in H. destruct H as [Hc Hs].
  now rewrite (IH Hs), Hc.
Qed.

(** What the greedy star and the closing brace match: everything up to a
    closing brace after which no other follows. *)
Lemma starThenClose_some s m :
  starThenClose s = Some m <->
  exists body post,
    s = body ++ String closeBrace post /\
    occurs closeBrace post = false /\
    m = body ++ String closeBrace EmptyString.
Proof.
  split.
  - revert m. induction s as [|c s IH]; cbn [starThenClose]; [discriminate|].
    intros m. destruct (starThenClose s) as [m'|] eqn:Hs.
    + intros [= <-]. destruct (IH m' eq_refl) as (body & post & -> & Hpost & ->).
      exists (String c body), post. auto.
    + destruct (Ascii.eqb c closeBrace) eqn:Hc; [|discriminate].
      intros [= <-]. apply Ascii.eqb_eq in Hc. subst c.
      exists EmptyString, s. split; [reflexivity|].
      split; [now apply starThenClose_none | reflexivity].
  - intros (body & post & -> & Hpost & ->).
    induction body as [|c body IH]; cbn [append starThenClose].
    + rewrite (starThenClose_absent post Hpost).
      now rewrite Ascii.eqb_refl.
    + now rewrite IH.
Qed.

(** The match, without indices: the text is cut into a part without opening
    brace, the match, and a part without closing brace, and the match starts
    and ends with a brace. *)
Lemma matchJson_some text m :
  matchJson text = Some m <->
  exists pre body post,
    text = pre ++ String openBrace (body ++ String closeBrace post) /\
    occurs openBrace pre = false /\
    occurs closeBrace post = false /\
    m = String openBrace (body ++ String closeBrace EmptyString).
Proof.
  split.
  - revert m. induction text as [|c s IH]; [discriminate|].
    intros m. rewrite matchJson_cons. cbn [matchHere].
    destruct (Ascii.eqb c openBrace) eqn:Hc.
    + apply Ascii.eqb_eq in Hc. subst c.
      destruct (starThenClose s) as [m'|] eqn:Hs; cbn [option_map].
      * intros [= <-]. apply starThenClose_some in Hs.
        destruct Hs as (body & post & -> & Hpost & ->).
        exists EmptyString, body, post. auto.
      * intros Hm. exfalso. apply starThenClose_none in Hs.
        destruct (IH m Hm) as (pre & body & post & -> & _).
        change (String openBrace (body ++ String closeBrace post))
          with ((String openBrace body) ++ String closeBrace post) in Hs.
        rewrite <- JsStringFacts.append_assoc in Hs.
        rewrite JsStringFacts.occurs_middle in Hs. discriminate.
    + intros Hm. destruct (IH m Hm) as (pre & body & post & -> & Hpre & Hpost & ->).
      exists (String c pre), body, post. cbn [append occurs]. rewrite Hc. auto.
  - intros (pre & body & post & -> & Hpre & Hpost & ->).
    induction pre as [|c pre IH]; cbn [append].
    + rewrite matchJson_cons. cbn [matchHere]. rewrite Ascii.eqb_refl.
      assert (starThenClose (body ++ String closeBrace post)
              = Some (body ++ String closeBrace EmptyString)) as ->.
      { apply starThenClose_some. exists body, post. auto. }
      reflexivity.
    + cbn [occurs] in Hpre. apply orb_false_iff in Hpre. destruct Hpre as [Hc Hpre].
      rewrite matchJson_cons. cbn [matchHere]. rewrite Hc. now apply IH.
Qed.

(** The same for the reference definition by indices. *)
Lemma spec_maximalSpan_some text m :
  spec_maximalSpan text = Some m <->
  exists pre body post,
    text = pre ++ String openBrace (body ++ String closeBrace post) /\
    occurs openBrace pre = false /\
    occurs closeBrace post = false /\
    m = String openBrace (body ++ String closeBrace EmptyString).
Proof. rewrite <- matchJson_maximalSpan. apply matchJson_some. Qed.

End RegExpFacts.

(** ** Counting events *)

Section Counting.
Variable p : Event -> bool.

Lemma count_app (a b : list Event) : count p (a ++ b) = count p a + count p b.
Proof. unfold count. now rewrite filter_app, length_app. Qed.

Lemma count_cons (e : Event) (l : list Event) :
  count p (e :: l) = (if p e then 1 else 0) + count p l.
Proof. unfold count. cbn [filter]. destruct (p e); reflexivity. Qed.

Lemma count_none (q : Event -> bool) (evs : list Event) :
  (forall e, q e = true -> p e = false) ->
  forallb q evs = true -> count p evs = 0.
Proof.
  intros Hq. induction evs as [|e evs IH]; cbn [forallb]; intros H;
    [reflexivity|].
  apply andb_true_iff in H. destruct H as [He Hevs].
  unfold count in *. cbn [filter]. rewrite (Hq e He). auto.
Qed.

End Counting.

Lemma isReport_not_callback e : isReport e = true -> isCallback e = false.
Proof. destruct e; try discriminate; reflexivity. Qed.

Lemma keepsPreview_not_revoke u e :
  keepsPreview e = true -> isRevoke u e = false.
Proof. destruct e; try discriminate; reflexivity. Qed.

(** ** Frames: what a computation may change *)

Section Frames.
Variable R : World -> World -> Prop.
Hypothesis R_refl : forall w, R w w.
Hypothesis R_trans : forall w1 w2 w3, R w1 w2 -> R w2 w3 -> R w1 w3.

Lemma confined_ret A (a : A) : confined R (ret a).
Proof. intros w. apply R_refl. Qed.

Lemma confined_throw A e : confined R (@throw A e).
Proof. intros w. apply R_refl. Qed.

Lemma confined_complete A (c : Completion A) : confined R (complete c).
Proof. intros w. apply R_refl. Qed.

Lemma confined_bind A B (m : M A) (k : A -> M B) :
  confined R m -> (forall a, confined R (k a)) -> confined R (bind m k).
Proof.
  intros Hm Hk w. unfold bind. specialize (Hm w).
  destruct (m w) as [[a|e] w1]; cbn [snd] in *; [|assumption].
  eapply R_trans; [eassumption|]. apply Hk.
Qed.

Lemma confined_tryCatch A (m : M A) (h : Exn -> M A) :
  confined R m -> (forall e, confined R (h e)) -> confined R (tryCatch m h).
Proof.
  intros Hm Hh w. unfold tryCatch. specialize (Hm w).
  destruct (m w) as [[a|e] w1]; cbn [snd] in *; [assumption|].
  eapply R_trans; [eassumption|]. apply Hh.
Qed.

Lemma confined_tryFinally A (m : M A) (f : M unit) :
  confined R m -> confined R f -> confined R (tryFinally m f).
Proof.
  intros Hm Hf w. unfold tryFinally. specialize (Hm w).
  destruct (m w) as [c w1]. cbn [snd] in Hm. specialize (Hf w1).
  destruct (f w1) as [[u|e] w2]; cbn [snd] in *;
    eapply R_trans; eassumption.
Qed.

End Frames.

Lemma confined_weaken (R S : World -> World -> Prop) A (m : M A) :
  (forall w w', R w w' -> S w w') -> confined R m -> confined S m.
Proof. intros HRS Hm w. apply HRS, Hm. Qed.

Lemma logged_nil w : logged w [] = w.
Proof. destruct w. unfold logged. cbn. now rewrite app_nil_r. Qed.

Lemma logged_logged w a b : logged (logged w a) b = logged w (a ++ b).
Proof. unfold logged. cbn. now rewrite app_assoc. Qed.

Lemma reportsOnly_refl w : reportsOnly w w.
Proof. exists []. now rewrite logged_nil. Qed.

Lemma reportsOnly_trans w1 w2 w3 :
  reportsOnly w1 w2 -> reportsOnly w2 w3 -> reportsOnly w1 w3.
Proof.
  intros [a [-> Ha]] [b [-> Hb]]. exists (a ++ b).
  rewrite logged_logged, forallb_app, Ha, Hb. auto.
Qed.

Lemma previewKept_refl w : previewKept w w.
Proof. repeat split. exists []. now rewrite app_nil_r. Qed.

Lemma previewKept_trans w1 w2 w3 :
  previewKept w1 w2 -> previewKept w2 w3 -> previewKept w1 w3.
Proof.
  intros (Hp & Hf & Ho & Hn & a & Ha & Hqa)
         (Hp' & Hf' & Ho' & Hn' & b & Hb & Hqb).
  repeat split; try congruence.
  exists (a ++ b). rewrite Hb, Ha, app_assoc, forallb_app, Hqa, Hqb. auto.
Qed.

Lemma reportsOnly_previewKept w w' : reportsOnly w w' -> previewKept w w'.
Proof.
  intros [evs [-> Hevs]]. repeat split. exists evs. split; [reflexivity|].
  rewrite forallb_forall in *. intros e He. specialize (Hevs e He).
  destruct e; try discriminate; reflexivity.
Qed.

(** Steps of a proof that a computation records reports only. *)
Ltac reports :=
  repeat first
    [ apply confined_ret; apply reportsOnly_refl
    | apply confined_throw; apply reportsOnly_refl
    | apply confined_bind; [apply reportsOnly_trans | | intros ?]
    | apply confined_tryCatch; [apply reportsOnly_trans | | intros ?] ].

Lemma emit_reportsOnly e : isReport e = true -> confined reportsOnly (emit e).
Proof.
  intros He w. exists [e]. cbn [forallb]. rewrite He. auto.
Qed.

Lemma fileToGenerativePart_reportsOnly env file :
  confined reportsOnly (fileToGenerativePart env file).
Proof.
  unfold fileToGenerativePart, loadPdf, saveAsBase64, consoleError.
  destruct (String.eqb (type file) pdfType).
  - apply confined_tryCatch; [apply reportsOnly_trans | | intros e].
    + apply confined_bind; [apply reportsOnly_trans | | intros pdfDoc].
      * destruct (PDFDocument_load env (bytes file)); reports.
      * destruct (Nat.eqb (getPageCount pdfDoc) 0); reports.
        destruct (save pdfDoc); reports.
    + apply confined_bind; [apply reportsOnly_trans | | intros _].
      * now apply emit_reportsOnly.
      * reports.
  - reports.
Qed.

Lemma generateContentText_reportsOnly env p part :
  confined reportsOnly (generateContentText env p part).
Proof.
  unfold generateContentText.
  apply confined_bind; [apply reportsOnly_trans | | intros _].
  - now apply emit_reportsOnly.
  - destruct (generateContent env p part); reports.
Qed.

Lemma extractReceiptData_reportsOnly env text :
  confined reportsOnly (extractReceiptData env text).
Proof.
  unfold extractReceiptData, parseJson.
  destruct (RegExp.matchJson text) as [m|]; [|reports].
  destruct (JSON_parse env m); reports.
Qed.

(** The pipeline changes nothing but the trace, and records only reports. *)
Lemma extractionPipeline_reportsOnly env file :
  confined reportsOnly (extractionPipeline env file).
Proof.
  unfold extractionPipeline.
  apply confined_bind; [apply reportsOnly_trans | | intros part].
  - apply fileToGenerativePart_reportsOnly.
  - apply confined_bind; [apply reportsOnly_trans | | intros text].
    + apply generateContentText_reportsOnly.
    + apply extractReceiptData_reportsOnly.
Qed.

Lemma setIsLoading_previewKept b : confined previewKept (setIsLoading b).
Proof. intros w. repeat split. exists [SetIsLoading b]. auto. Qed.

Lemma setError_previewKept e : confined previewKept (setError e).
Proof. intros w. repeat split. exists [SetError e]. auto. Qed.

Lemma onReceiptData_previewKept env r :
  confined previewKept (onReceiptData env r).
Proof.
  intros w. unfold onReceiptData, bind, emit.
  destruct (onReceiptData_throws env r); repeat split;
    exists [OnReceiptData r]; auto.
Qed.

Lemma processReceiptCatch_previewKept e :
  confined previewKept (processReceiptCatch e).
Proof.
  intros w. repeat split.
  exists [ConsoleError "Error processing receipt:" e;
          SetError (Some processFailedMessage)].
  cbn. rewrite <- app_assoc. auto.
Qed.

Lemma onDropCatch_previewKept e : confined previewKept (onDropCatch e).
Proof.
  intros w. repeat split.
  exists [ConsoleError "Error processing file:" e;
          SetError (Some fileFailedMessage)].
  cbn. rewrite <- app_assoc. auto.
Qed.

(** One step of a proof that a computation keeps the preview. *)
Ltac kept_step :=
  first
    [ apply setIsLoading_previewKept
    | apply setError_previewKept
    | apply onReceiptData_previewKept
    | apply processReceiptCatch_previewKept
    | apply onDropCatch_previewKept
    | apply confined_ret; apply previewKept_refl
    | apply confined_complete; apply previewKept_refl
    | eapply confined_weaken; [apply reportsOnly_previewKept|];
      first [ apply fileToGenerativePart_reportsOnly
            | apply generateContentText_reportsOnly
            | apply extractReceiptData_reportsOnly ]
    | apply confined_bind; [apply previewKept_trans | | intros ?]
    | apply confined_tryCatch; [apply previewKept_trans | | intros ?]
    | apply confined_tryFinally; [apply previewKept_trans | | ] ].

(** [processReceipt] leaves the preview and the object-URL store alone. *)
Lemma processReceipt_previewKept env file :
  confined previewKept (processReceipt env file).
Proof.
  unfold processReceipt.
  destruct (negb (JsString.truthyOpt (apiKey env))); repeat kept_step.
Qed.

(** ** The description of a receipt *)

(** C1 (as amended). [deriveDescription] touches no field but
    [description]. With at least one item the description is the first three
    items joined by a comma and a space, followed by three dots when there are
    more than three. Without items it is the merchant when the merchant is a
    non-empty string. Otherwise the description is the one the reply carried,
    which is unset only when the reply had none. *)
Theorem deriveDescription_spec r :
  let r' := deriveDescription r in
  amount r' = amount r /\ date r' = date r /\
  items r' = items r /\ merchant r' = merchant r /\
  match items r with
  | Some [a] => description r' = Some a
  | Some [a; b] => description r' = Some (a ++ ", " ++ b)%string
  | Some [a; b; c] => description r' = Some (a ++ ", " ++ b ++ ", " ++ c)%string
  | Some (a :: b :: c :: _ :: _) =>
      description r' = Some (a ++ ", " ++ b ++ ", " ++ c ++ "...")%string
  | Some [] | None =>
      match merchant r with
      | Some (String x m) => description r' = Some (String x m)
      | Some EmptyString | None => description r' = description r
      end
  end.
Proof.
  destruct r as [am da de it me]. unfold deriveDescription, hasItems.
  cbn [items merchant description amount date].
  destruct it as [[|a [|b [|c [|d rest]]]]|];
    cbn [List.length Nat.ltb Nat.leb JsString.slice0 firstn JsString.join
         String.concat setDescription items merchant description amount date];
    repeat split;
    rewrite ?JsStringFacts.append_assoc, ?JsStringFacts.append_empty;
    try reflexivity.
  all: destruct me as [[|x m]|]; reflexivity.
Qed.

(** The example of the specification: four items give the first three and
    three dots. *)
Example deriveDescription_milk :
  description (deriveDescription Examples.milkReceipt)
  = Some "milk, eggs, bread...".
Proof. reflexivity. Qed.

(** C1, counterexample. A reply with neither items nor merchant but with a
    description of its own keeps that description: it is not left unset. *)
Lemma description_of_reply_survives :
  let r := Examples.describedReceipt in
  items r = None /\ merchant r = None /\
  description (deriveDescription r) = Some "tea" /\
  description (deriveDescription r) <> None.
Proof. cbn. repeat split. discriminate. Qed.

(** An empty merchant is not copied either: the description stays unset
    rather than becoming the empty string. *)
Example blank_merchant_is_not_a_description :
  let r := Examples.blankMerchantReceipt in
  merchant r = Some EmptyString /\ description (deriveDescription r) = None.
Proof. split; reflexivity. Qed.

(** ** Extracting the JSON text *)

(** C2. Parsing selects the span from the first opening brace to the last
    closing brace of the reply. Without such a span it throws the error "Could
    not extract valid JSON from the response"; when [JSON.parse] rejects the
    span it throws the [SyntaxError]; otherwise it returns the record decoded
    from that span, before any description is derived. The world is left as
    it was. *)
Theorem extractReceiptData_maximal_span env text w :
  extractReceiptData env text w =
    match spec_maximalSpan text with
    | None =>
        (Throw (Error "Could not extract valid JSON from the response"), w)
    | Some span =>
        match JSON_parse env span with
        | None => (Throw SyntaxError, w)
        | Some receiptData => (Normal receiptData, w)
        end
    end.
Proof.
  unfold extractReceiptData. rewrite RegExpFacts.matchJson_maximalSpan.
  destruct (spec_maximalSpan text) as [span|]; [|reflexivity].
  unfold parseJson. destruct (JSON_parse env span); reflexivity.
Qed.

(** Prose and code fences around the object are dropped; a closing brace
    before the first opening brace does not count. *)
Example matchJson_in_prose :
  RegExp.matchJson "Sure! ```json {a: {b}} ``` bye" = Some "{a: {b}}"%string
  /\ RegExp.matchJson "} no object {" = None
  /\ RegExp.matchJson "{one} and {two}" = Some "{one} and {two}"%string.
Proof. repeat split. Qed.

(** ** Encoding a file *)

Lemma readAsDataURL_shape file :
  readAsDataURL file =
  (("data:" ++ type file ++ ";base64")
     ++ String ","%char (Base64.encode (bytes file)))%string.
Proof.
  unfold readAsDataURL.
  rewrite !JsStringFacts.append_assoc. reflexivity.
Qed.

(** The payload of a file that is no PDF and whose declared type holds no
    comma is the base64 text of its content. *)
Lemma image_payload env file w :
  String.eqb (type file) pdfType = false ->
  JsString.occurs ","%char (type file) = false ->
  fileToGenerativePart env file w =
    (Normal (mkInlineData (Some (Base64.encode (bytes file))) (type file)), w).
Proof.
  intros Hpdf Hcomma.
  unfold fileToGenerativePart. rewrite Hpdf. unfold ret.
  rewrite readAsDataURL_shape.
  rewrite JsStringFacts.split_header_payload.
  - reflexivity.
  - cbn [append JsString.occurs Ascii.eqb Bool.eqb orb].
    rewrite JsStringFacts.occurs_append, Hcomma. reflexivity.
  - apply Base64Facts.encode_no_comma.
Qed.

(** C7. For every file of an accepted image type, encoding returns a payload
    whose [mimeType] is the declared type of the file and whose [data] is
    base64 text that decodes back to exactly the content of the file. *)
Theorem accepted_image_roundtrip env file w :
  In (type file) spec_acceptedImageTypes ->
  exists payload,
    fileToGenerativePart env file w =
      (Normal (mkInlineData (Some payload) (type file)), w) /\
    Base64.decode payload = Some (bytes file).
Proof.
  intros Haccepted. exists (Base64.encode (bytes file)).
  split; [|apply Base64Facts.decode_encode].
  apply image_payload;
    cbn [spec_acceptedImageTypes In] in Haccepted;
    repeat (destruct Haccepted as [<-|Haccepted]; [reflexivity|]);
    contradiction.
Qed.

Lemma accepted_image_roundtrip_witness :
  exists payload,
    fileToGenerativePart Examples.envNoKey Examples.pngFile initialWorld =
      (Normal (mkInlineData (Some payload) "image/png"), initialWorld) /\
    Base64.decode payload = Some (bytes Examples.pngFile).
Proof.
  apply (accepted_image_roundtrip Examples.envNoKey Examples.pngFile
           initialWorld).
  right. right. left. reflexivity.
Defined.

(** C8 (as amended). For a file declared as [application/pdf], encoding
    fails with the error "Failed to process PDF file" when the document does
    not load, has no page or cannot be saved, the cause (for a document
    without pages the error "PDF has no pages") being written to the console
    only; otherwise it returns the base64 text of the whole document as the
    PDF library saves it, with [mimeType] [application/pdf]. *)
Theorem fileToGenerativePart_pdf env file w :
  type file = pdfType ->
  let failed (cause : Exn) :=
    (@Throw InlineData (Error "Failed to process PDF file"),
     logged w [ConsoleError "Error processing PDF:" cause]) in
  fileToGenerativePart env file w =
    match PDFDocument_load env (bytes file) with
    | None => failed (Rejected "pdf-lib")
    | Some pdfDoc =>
        if Nat.eqb (getPageCount pdfDoc) 0
        then failed (Error "PDF has no pages")
        else
          match save pdfDoc with
          | Some saved =>
              (Normal (mkInlineData (Some (Base64.encode saved))
                                    "application/pdf"), w)
          | None => failed (Rejected "pdf-lib")
          end
    end.
Proof.
  intros Htype failed. subst failed. unfold fileToGenerativePart.
  rewrite Htype, String.eqb_refl.
  unfold tryCatch, bind, loadPdf, saveAsBase64, throw, ret, consoleError, emit.
  destruct (PDFDocument_load env (bytes file)) as [pdfDoc|]; [|reflexivity].
  destruct (Nat.eqb (getPageCount pdfDoc) 0); [reflexivity|].
  destruct (save pdfDoc) as [saved|]; [|reflexivity].
  change ("data:application/pdf;base64," ++ Base64.encode saved)%string
    with ("data:application/pdf;base64"
            ++ String ","%char (Base64.encode saved))%string.
  rewrite JsStringFacts.split_header_payload.
  - reflexivity.
  - reflexivity.
  - apply Base64Facts.encode_no_comma.
Qed.

Lemma fileToGenerativePart_pdf_witness :
  fileToGenerativePart Examples.envOnePage Examples.pdfFile initialWorld =
    (Normal (mkInlineData (Some "cGRm"%string) "application/pdf"),
     initialWorld).
Proof.
  apply (fileToGenerativePart_pdf Examples.envOnePage Examples.pdfFile
           initialWorld).
  reflexivity.
Defined.

(** C8, counterexample. For a document without pages the error that leaves
    [fileToGenerativePart] is the general one; "PDF has no pages" reaches the
    console only. *)
Lemma empty_pdf_fails_with_general_error :
  let file := Examples.pdfFile in
  let env := Examples.envToy in
  option_map getPageCount (PDFDocument_load env (bytes file)) = Some 0 /\
  fileToGenerativePart env file initialWorld =
    (Throw (Error "Failed to process PDF file"),
     logged initialWorld
       [ConsoleError "Error processing PDF:" (Error "PDF has no pages")]) /\
  fst (fileToGenerativePart env file initialWorld)
    <> Throw (Error "PDF has no pages").
Proof. cbn. repeat split. discriminate. Qed.

(** ** processReceipt *)

Lemma truthyOpt_absent (k : option string) :
  k = None \/ k = Some EmptyString -> JsString.truthyOpt k = false.
Proof. intros [-> | ->]; reflexivity. Qed.

(** C5. When the API key is absent (or empty), [processReceipt] returns after
    two state updates: the error becomes the key message and [isLoading] is
    set to false. No update sets [isLoading] to true and no request is sent
    to the model. *)
Theorem processReceipt_without_key env file w :
  apiKey env = None \/ apiKey env = Some EmptyString ->
  let evs := [SetError (Some apiKeyMessage); SetIsLoading false] in
  processReceipt env file w =
    (Normal tt,
     mkWorld (mkSession false (Some apiKeyMessage)
                        (previewUrl (session w)) (fileType (session w)))
             (objectUrls w) (nextObjectUrl w) (trace w ++ evs))
  /\ count entersLoading evs = 0
  /\ count isModelCall evs = 0.
Proof.
  intros Hkey evs. apply truthyOpt_absent in Hkey.
  unfold processReceipt. rewrite Hkey. cbn [negb].
  split; [|split; reflexivity].
  unfold bind, setError, setIsLoading, modifySession, emit, ret. cbn.
  now rewrite <- app_assoc.
Qed.

Lemma processReceipt_without_key_witness :
  processReceipt Examples.envNoKey Examples.pngFile initialWorld =
    (Normal tt,
     mkWorld (mkSession false (Some apiKeyMessage) None None) [] 0
             [SetError (Some apiKeyMessage); SetIsLoading false]).
Proof.
  apply (processReceipt_without_key Examples.envNoKey Examples.pngFile
           initialWorld).
  left. reflexivity.
Defined.

Lemma startLoading_then A (rest : M A) w :
  (setIsLoading true ;; setError None ;; rest) w = rest (snd (startLoading w)).
Proof. reflexivity. Qed.

Lemma pipeline_then A env file (k : JsObject -> M A) w :
  (imagePart <- fileToGenerativePart env file ;;
   text <- generateContentText env prompt imagePart ;;
   receiptData <- extractReceiptData env text ;;
   k receiptData) w =
  (receiptData <- extractionPipeline env file ;; k receiptData) w.
Proof.
  unfold extractionPipeline, bind.
  destruct (fileToGenerativePart env file w) as [[imagePart|e] w1];
    [|reflexivity].
  destruct (generateContentText env prompt imagePart w1) as [[text|e] w2];
    reflexivity.
Qed.

(** With a key, [processReceipt] is the pipeline started in the loading
    state, followed by the description and the callback, inside the [catch]
    and [finally] blocks. *)
Lemma processReceipt_with_key env file w :
  JsString.truthyOpt (apiKey env) = true ->
  processReceipt env file w =
    tryFinally
      (tryCatch
         (receiptData <- extractionPipeline env file ;;
          described <- complete (describeReceipt env receiptData) ;;
          onReceiptData env described)
         processReceiptCatch)
      (setIsLoading false)
      (snd (startLoading w)).
Proof.
  intros Hkey. unfold processReceipt. rewrite Hkey. cbn [negb].
  unfold tryFinally, tryCatch.
  rewrite startLoading_then, pipeline_then. reflexivity.
Qed.

Lemma tryFinally_setIsLoading A (m : M A) w :
  isLoading (session (snd (tryFinally m (setIsLoading false) w))) = false.
Proof. unfold tryFinally. destruct (m w) as [c w1]. reflexivity. Qed.

(** C10. After every run of [processReceipt], whatever the key, the file and
    the answers of the libraries, [isLoading] is false. *)
Theorem processReceipt_not_loading env file w :
  isLoading (session (snd (processReceipt env file w))) = false.
Proof.
  destruct (JsString.truthyOpt (apiKey env)) eqn:Hkey.
  - rewrite processReceipt_with_key by assumption.
    apply tryFinally_setIsLoading.
  - unfold processReceipt. rewrite Hkey. reflexivity.
Qed.

(** *** Objects of the declared shape *)

Lemma getProperty_setProperty_same key v o :
  getProperty key (setProperty key v o) = Some v.
Proof.
  induction o as [|[k v0] o IH]; cbn [setProperty getProperty].
  - now rewrite String.eqb_refl.
  - destruct (String.eqb k key) eqn:Hk; cbn [getProperty]; rewrite Hk;
      [reflexivity | assumption].
Qed.

Lemma getProperty_setProperty_other key key' v o :
  String.eqb key key' = false ->
  getProperty key' (setProperty key v o) = getProperty key' o.
Proof.
  intros Hne.
  induction o as [|[k v0] o IH]; cbn [setProperty getProperty].
  - now rewrite Hne.
  - destruct (String.eqb k key) eqn:Hk; cbn [getProperty].
    + apply String.eqb_eq in Hk. subst k. now rewrite Hne.
    + rewrite IH. reflexivity.
Qed.

Lemma asStrings_elements env vs ss :
  asStrings vs = Some ss -> map (elementString env) vs = ss.
Proof.
  revert ss. induction vs as [|v vs IH]; cbn [asStrings map]; intros ss.
  - now intros [= <-].
  - destruct v; cbn [asString]; try discriminate.
    destruct (asStrings vs) as [ss'|]; [|discriminate].
    intros [= <-]. cbn [elementString]. now rewrite (IH ss').
Qed.

Lemma asStrings_length vs ss :
  asStrings vs = Some ss -> List.length vs = List.length ss.
Proof.
  intros H. rewrite <- (asStrings_elements Examples.envNoKey vs ss H).
  now rewrite length_map.
Qed.

Lemma readField_setProperty_other A (decode : JsValue -> option A)
    key key' v o :
  String.eqb key key' = false ->
  readField decode key' (setProperty key v o) = readField decode key' o.
Proof.
  intros Hne. unfold readField.
  now rewrite getProperty_setProperty_other.
Qed.

(** Writing a string as the description of an object of the declared shape
    gives the record with that description. *)
Lemma asReceiptData_setDescription o r d :
  asReceiptData o = Some r ->
  asReceiptData (setProperty "description" (JString d) o)
  = Some (setDescription (Some d) r).
Proof.
  unfold asReceiptData.
  rewrite (readField_setProperty_other _ asNumber _ "amount") by reflexivity.
  rewrite (readField_setProperty_other _ asString _ "date") by reflexivity.
  rewrite (readField_setProperty_other _ asStringArray _ "items")
    by reflexivity.
  rewrite (readField_setProperty_other _ asString _ "merchant")
    by reflexivity.
  assert (readField asString "description"
            (setProperty "description" (JString d) o) = Some (Some d)) as ->.
  { unfold readField. now rewrite getProperty_setProperty_same. }
  destruct (readField asNumber "amount" o); [|discriminate].
  destruct (readField asString "date" o); [|discriminate].
  destruct (readField asString "description" o); [|discriminate].
  destruct (readField asStringArray "items" o); [|discriminate].
  destruct (readField asString "merchant" o); [|discriminate].
  intros [= <-]. reflexivity.
Qed.

Lemma asReceiptData_items o r :
  asReceiptData o = Some r ->
  readField asStringArray "items" o = Some (items r) /\
  readField asString "merchant" o = Some (merchant r).
Proof.
  unfold asReceiptData.
  destruct (readField asNumber "amount" o); [|discriminate].
  destruct (readField asString "date" o); [|discriminate].
  destruct (readField asString "description" o); [|discriminate].
  destruct (readField asStringArray "items" o); [|discriminate].
  destruct (readField asString "merchant" o); [|discriminate].
  intros [= <-]. split; reflexivity.
Qed.

(** On an object of the declared shape the description is derived without
    exception, and the result reads as [deriveDescription] of the record. *)
Lemma describeReceipt_shaped env o r :
  asReceiptData o = Some r ->
  exists described,
    describeReceipt env o = Normal described /\
    asReceiptData described = Some (deriveDescription r).
Proof.
  intros Hshape.
  destruct (asReceiptData_items o r Hshape) as [Hitems Hmerchant].
  unfold readField in Hitems, Hmerchant.
  unfold describeReceipt, hasItemsValue, deriveDescription, hasItems.
  destruct (getProperty "items" o) as [v|] eqn:Hv.
  - destruct v; cbn [asStringArray option_map] in Hitems; try discriminate.
    destruct (asStrings elements) as [ss|] eqn:Hss; [|discriminate].
    cbn [option_map] in Hitems. injection Hitems as Hitems.
    rewrite <- Hitems.
    cbn [truthyValue lengthPositive andb].
    rewrite (asStrings_length _ _ Hss).
    destruct (Nat.ltb 0 (List.length ss)).
    + eexists. split; [reflexivity|].
      unfold joinValues, JsString.slice0, JsString.join.
      rewrite <- firstn_map, (asStrings_elements env _ _ Hss).
      apply asReceiptData_setDescription. assumption.
    + clear Hitems.
      destruct (getProperty "merchant" o) as [m|].
      * destruct m; cbn [asString option_map] in Hmerchant;
          try discriminate.
        injection Hmerchant as Hmerchant. rewrite <- Hmerchant.
        cbn [truthyValue JsString.truthyOpt].
        destruct (JsString.truthy s).
        -- eexists. split; [reflexivity|].
           apply asReceiptData_setDescription. assumption.
        -- eexists. split; [reflexivity|assumption].
      * injection Hmerchant as Hmerchant. rewrite <- Hmerchant.
        eexists. split; [reflexivity|assumption].
  - injection Hitems as Hitems. rewrite <- Hitems.
    destruct (getProperty "merchant" o) as [m|].
    + destruct m; cbn [asString option_map] in Hmerchant; try discriminate.
      injection Hmerchant as Hmerchant. rewrite <- Hmerchant.
      cbn [truthyValue JsString.truthyOpt].
      destruct (JsString.truthy s).
      * eexists. split; [reflexivity|].
        apply asReceiptData_setDescription. assumption.
      * eexists. split; [reflexivity|assumption].
    + injection Hmerchant as Hmerchant. rewrite <- Hmerchant.
      eexists. split; [reflexivity|assumption].
Qed.

Lemma asReceiptData_toObject r : asReceiptData (toObject r) = Some r.
Proof.
  destruct r as [[a|] [d|] [de|] [i|] [m|]];
    unfold asReceiptData, readField, toObject, field;
    cbn [amount date description items merchant app getProperty String.eqb
         Ascii.eqb Bool.eqb asNumber asString asStringArray option_map];
    try reflexivity.
  all: assert (Hi : asStrings (map JString i) = Some i)
    by (induction i as [|x i IH]; cbn [map asStrings asString];
        [reflexivity | now rewrite IH]);
    rewrite Hi; reflexivity.
Qed.

(** C9 (as amended). In every run of [processReceipt] with a key, the
    callback is called exactly once when encoding, the model call and parsing
    succeed and the description can be derived from the decoded object: it
    receives the object with its description, and in the world in which it is
    called the error is cleared. For a reply of the declared shape the
    description can always be derived, and the object received reads as the
    record with its derived description. The callback is not called at all
    when a stage fails, when the derivation throws, or when there is no
    key. *)
Theorem onReceiptData_once_when_described env file w :
  let w' := snd (processReceipt env file w) in
  exists evs,
    trace w' = trace w ++ evs /\
    if JsString.truthyOpt (apiKey env) then
      match extractionPipeline env file (snd (startLoading w)) with
      | (Normal receiptData, wCall) =>
          match describeReceipt env receiptData with
          | Normal described =>
              count isCallback evs = 1 /\
              error (session wCall) = None /\
              exists before after,
                trace wCall = trace w ++ before /\
                evs = before ++ OnReceiptData described :: after
          | Throw _ => count isCallback evs = 0
          end /\
          match asReceiptData receiptData with
          | Some r =>
              exists described,
                describeReceipt env receiptData = Normal described /\
                asReceiptData described = Some (deriveDescription r)
          | None => True
          end
      | (Throw _, _) => count isCallback evs = 0
      end
    else count isCallback evs = 0.
Proof.
  cbv zeta.
  destruct (JsString.truthyOpt (apiKey env)) eqn:Hkey.
  - rewrite processReceipt_with_key by assumption.
    destruct (extractionPipeline_reportsOnly env file (snd (startLoading w)))
      as [reports [Hw Hreports]].
    pose proof (count_none isCallback isReport reports
                  isReport_not_callback Hreports) as Hnone.
    unfold tryFinally, tryCatch, bind.
    destruct (extractionPipeline env file (snd (startLoading w)))
      as [[receiptData|e] wCall]; cbn [snd] in Hw; subst wCall.
    + assert (Hshaped :
                match asReceiptData receiptData with
                | Some r =>
                    exists described,
                      describeReceipt env receiptData = Normal described /\
                      asReceiptData described = Some (deriveDescription r)
                | None => True
                end).
      { destruct (asReceiptData receiptData) as [r|] eqn:Hr; [|exact I].
        apply describeReceipt_shaped. assumption. }
      unfold complete.
      destruct (describeReceipt env receiptData) as [described|e].
      * unfold onReceiptData, bind, emit.
        destruct (onReceiptData_throws env described);
          cbn; rewrite <- !app_assoc; cbn [app];
          (eexists; split; [reflexivity|]);
          (split; [|assumption]);
          (split; [|split; [reflexivity|]]).
        -- rewrite !count_cons, count_app, Hnone. reflexivity.
        -- exists (SetIsLoading true :: SetError None :: reports). eexists.
           split; [cbn; rewrite <- ?app_assoc; reflexivity | reflexivity].
        -- rewrite !count_cons, count_app, Hnone. reflexivity.
        -- exists (SetIsLoading true :: SetError None :: reports). eexists.
           split; [cbn; rewrite <- ?app_assoc; reflexivity | reflexivity].
      * cbn. rewrite <- !app_assoc. cbn [app].
        eexists; split; [reflexivity|]. split; [|assumption].
        rewrite !count_cons, count_app, !count_cons, Hnone. reflexivity.
    + cbn. rewrite <- !app_assoc. cbn [app].
      eexists; split; [reflexivity|].
      rewrite !count_cons, count_app, Hnone. reflexivity.
  - unfold processReceipt. rewrite Hkey. cbn. rewrite <- !app_assoc.
    eexists; split; reflexivity.
Qed.

(** C9, counterexample. The reply holds an object in which [items] is a
    string: encoding, the model call and parsing succeed, the derivation of
    the description throws, and the callback is never called; the session
    shows the general failure message. *)
Lemma misshaped_reply_is_not_delivered :
  let env := Examples.envItemsString in
  let file := Examples.pngFile in
  let w' := snd (processReceipt env file initialWorld) in
  fst (extractionPipeline env file (snd (startLoading initialWorld)))
    = Normal [("items", JString "milk")] /\
  describeReceipt env [("items", JString "milk")] = Throw TypeError /\
  count isCallback (trace w') = 0 /\
  error (session w') = Some processFailedMessage.
Proof. repeat split. Qed.

(** A complete run: the toy model answers in prose, the object is found and
    decoded, and the parent receives the object with its description. *)
Example processReceipt_success :
  trace (snd (processReceipt Examples.envToy Examples.pngFile initialWorld)) =
    [SetIsLoading true; SetError None;
     GenerateContent prompt
       (mkInlineData (Some "YWJj"%string) "image/png");
     OnReceiptData
       [("date", JString "2024-05-01");
        ("items", JArray [JString "milk"; JString "eggs"; JString "bread";
                          JString "soap"]);
        ("merchant", JString "Acme");
        ("description", JString "milk, eggs, bread...")];
     SetIsLoading false].
Proof. reflexivity. Qed.

(** ** onDrop *)

Lemma supportedType_test t :
  negb (JsString.startsWith "image/" t) && negb (String.eqb t pdfType) =
  negb (supportedType t).
Proof. unfold supportedType. now rewrite negb_orb. Qed.

Lemma onDrop_supported_eq env file rest w :
  supportedType (type file) = true ->
  onDrop env (file :: rest) w =
    (tryCatch (processReceipt env file) onDropCatch ;;
     ret (Some (nextObjectUrl w)))
      (previewing file w).
Proof.
  intros Hsup. unfold onDrop. rewrite supportedType_test, Hsup. cbn [negb].
  unfold previewing.
  unfold bind at 1 2 3. cbn [createObjectURL setPreviewUrl setFileType
    modifySession emit bind session objectUrls nextObjectUrl trace
    isLoading error previewUrl fileType].
  rewrite <- !app_assoc. reflexivity.
Qed.

(** A drop of a supported file: one URL is created and becomes the preview;
    whatever follows leaves it in place. *)
Lemma onDrop_supported env file rest w :
  supportedType (type file) = true ->
  let u := nextObjectUrl w in
  let w' := snd (onDrop env (file :: rest) w) in
  previewUrl (session w') = Some u /\
  fileType (session w') = Some (type file) /\
  objectUrls w' = objectUrls w ++ [u] /\
  nextObjectUrl w' = S u /\
  exists evs,
    trace w' = trace w ++ CreateObjectURL u :: SetPreviewUrl (Some u)
                 :: SetFileType (Some (type file)) :: evs /\
    forallb keepsPreview evs = true.
Proof.
  intros Hsup u w'. subst w'. rewrite onDrop_supported_eq by assumption.
  assert (Hkept : confined previewKept
                    (tryCatch (processReceipt env file) onDropCatch)).
  { repeat kept_step. apply processReceipt_previewKept. }
  destruct (Hkept (previewing file w)) as (Hp & Hf & Ho & Hn & evs & Ht & Hevs).
  unfold bind.
  destruct (tryCatch (processReceipt env file) onDropCatch (previewing file w))
    as [[[]|e] w4];
    cbn [snd ret] in *;
    (repeat split; try assumption);
    exists evs; (split; [|assumption]);
    rewrite Ht; cbn [previewing trace]; rewrite <- !app_assoc; reflexivity.
Qed.

Lemma onDrop_unsupported env file rest w :
  supportedType (type file) = false ->
  onDrop env (file :: rest) w =
    (Normal None,
     mkWorld (mkSession (isLoading (session w)) (Some unsupportedMessage)
                        (previewUrl (session w)) (fileType (session w)))
             (objectUrls w) (nextObjectUrl w)
             (trace w ++ [SetError (Some unsupportedMessage)])).
Proof.
  intros Hsup. unfold onDrop. rewrite supportedType_test, Hsup. reflexivity.
Qed.

(** C4 (as amended). What a user's drop does is decided by what the drop
    zone hands to [onDrop]. When it hands over no file, nothing changes: no
    error, no preview. Otherwise the first file gets a preview exactly when
    its declared type starts with [image/] or is [application/pdf]; the six
    types of the specification all do. For a first file of any other type
    the only effect is the message "Please upload an image or PDF file":
    the preview, the file type and the object-URL store are unchanged. *)
Theorem dropOnZone_type_gate :
  forallb supportedType spec_acceptedTypes = true /\
  forall env files w,
    let w' := snd (dropOnZone env files w) in
    match useDropzone_acceptedFiles env files with
    | [] => w' = w
    | file :: _ =>
        if JsString.startsWith "image/" (type file)
           || String.eqb (type file) "application/pdf"
        then
          previewUrl (session w') = Some (nextObjectUrl w) /\
          fileType (session w') = Some (type file) /\
          objectUrls w' = objectUrls w ++ [nextObjectUrl w]
        else
          error (session w') = Some unsupportedMessage /\
          previewUrl (session w') = previewUrl (session w) /\
          fileType (session w') = fileType (session w) /\
          objectUrls w' = objectUrls w /\
          trace w' = trace w ++ [SetError (Some unsupportedMessage)]
    end.
Proof.
  split; [reflexivity|]. intros env files w. cbv zeta. unfold dropOnZone.
  destruct (useDropzone_acceptedFiles env files) as [|file rest];
    [reflexivity|].
  change (JsString.startsWith "image/" (type file)
          || String.eqb (type file) "application/pdf")
    with (supportedType (type file)).
  destruct (supportedType (type file)) eqn:Hsup.
  - destruct (onDrop_supported env file rest w Hsup) as (Hp & Hf & Ho & _).
    auto.
  - rewrite onDrop_unsupported by assumption. cbn. auto.
Qed.

(** C4, counterexample. [image/gif] is not one of the six types, and a
    dropped GIF gets a preview; [text/plain] is none of them either, and a
    dropped text file, which the drop zone does not hand over, sets no
    error. *)
Lemma dropped_gif_previewed_and_text_ignored :
  (~ In (type Examples.gifFile) spec_acceptedTypes /\
   let w' := snd (dropOnZone Examples.envNoKey [Examples.gifFile]
                    initialWorld) in
   previewUrl (session w') = Some 0 /\
   fileType (session w') = Some "image/gif"%string /\
   objectUrls w' = [0]) /\
  (~ In (type Examples.notesFile) spec_acceptedTypes /\
   let w' := snd (dropOnZone Examples.envNoKey [Examples.notesFile]
                    initialWorld) in
   error (session w') = None /\
   w' = initialWorld).
Proof.
  split; split;
    try (cbn; intros H; repeat (destruct H as [H|H]; [discriminate|]);
         exact H);
    cbn; repeat split.
Qed.

(** ** clearPreview *)

Lemma clearPreview_run w :
  clearPreview w =
    match previewUrl (session w) with
    | Some u =>
        (Normal tt,
         mkWorld (mkSession (isLoading (session w)) None None None)
                 (remove Nat.eq_dec u (objectUrls w)) (nextObjectUrl w)
                 (trace w ++ [RevokeObjectURL u; SetPreviewUrl None;
                              SetFileType None; SetError None]))
    | None => (Normal tt, w)
    end.
Proof.
  unfold clearPreview, clearPreviewOf, bind, getSession.
  destruct (previewUrl (session w)) as [u|]; [|reflexivity].
  unfold revokeObjectURL, setPreviewUrl, setFileType, setError,
    modifySession, emit, bind.
  cbn [session objectUrls nextObjectUrl trace isLoading error previewUrl
       fileType].
  rewrite <- !app_assoc. reflexivity.
Qed.

Lemma count_revoke_clear u v :
  count (isRevoke v)
        [RevokeObjectURL u; SetPreviewUrl None; SetFileType None; SetError None]
  = if Nat.eqb v u then 1 else 0.
Proof. unfold count. cbn. destruct (Nat.eqb v u); reflexivity. Qed.

(** ** Object URLs over a session *)

(** No action releases an object URL that is not the current preview. *)
Lemma step_leaked env a u w : leaked u w -> leaked u (step env a w).
Proof.
  intros (Hin & Hprev & Hlt & Hrev). destruct a as [[|file rest]|]; cbn [step].
  - repeat split; assumption.
  - destruct (supportedType (type file)) eqn:Hsup.
    + destruct (onDrop_supported env file rest w Hsup)
        as (Hp & _ & Ho & Hn & evs & Ht & Hevs).
      repeat split.
      * rewrite Ho. apply in_or_app. now left.
      * rewrite Hp. intros [= E]. lia.
      * rewrite Hn. lia.
      * rewrite Ht, count_app, Hrev, !count_cons.
        rewrite (count_none (isRevoke u) keepsPreview evs
                   (keepsPreview_not_revoke u) Hevs).
        cbn [isRevoke]. destruct (Nat.eqb_spec u (nextObjectUrl w)); [lia|].
        reflexivity.
    + rewrite onDrop_unsupported by assumption. cbn [snd].
      repeat split;
        cbn [session objectUrls nextObjectUrl trace previewUrl];
        try assumption.
      rewrite count_app, Hrev. reflexivity.
  - rewrite clearPreview_run.
    destruct (previewUrl (session w)) as [v|] eqn:Hv; cbn [snd].
    + assert (u <> v) by congruence.
      repeat split;
        cbn [session objectUrls nextObjectUrl trace previewUrl];
        try assumption.
      * apply in_in_remove; assumption.
      * discriminate.
      * rewrite count_app, Hrev, count_revoke_clear.
        destruct (Nat.eqb_spec u v); [contradiction|reflexivity].
    + repeat split; try assumption. congruence.
Qed.

Lemma run_leaked env actions u w :
  leaked u w -> leaked u (run env actions w).
Proof.
  revert w. induction actions as [|a actions IH]; intros w H; [assumption|].
  apply IH. apply step_leaked. assumption.
Qed.

(** C3, the behaviour of the code. After two drops of supported files the
    URL of the first preview and the URL of the second are both allocated,
    and whatever the user does next, the first one stays allocated and is
    never revoked: a replaced preview is released zero times. *)
Theorem replaced_preview_never_revoked env f1 rest1 f2 rest2 actions :
  supportedType (type f1) = true ->
  supportedType (type f2) = true ->
  let w2 := run env [Drop (f1 :: rest1); Drop (f2 :: rest2)] initialWorld in
  let w := run env actions w2 in
  objectUrls w2 = [0; 1] /\
  previewUrl (session w2) = Some 1 /\
  In 0 (objectUrls w) /\
  count (isRevoke 0) (trace w) = 0.
Proof.
  intros H1 H2 w2 w.
  pose proof (onDrop_supported env f1 rest1 initialWorld H1) as D1.
  cbv zeta in D1.
  change (nextObjectUrl initialWorld) with 0 in D1.
  change (objectUrls initialWorld) with (@nil ObjectURL) in D1.
  change (trace initialWorld) with (@nil Event) in D1.
  set (w1 := snd (onDrop env (f1 :: rest1) initialWorld)) in *.
  destruct D1 as (Hp1 & _ & Ho1 & Hn1 & evs1 & Ht1 & Hevs1).
  pose proof (onDrop_supported env f2 rest2 w1 H2) as D2.
  cbv zeta in D2.
  assert (Hw2 : snd (onDrop env (f2 :: rest2) w1) = w2) by reflexivity.
  rewrite Hw2, Hn1, Ho1, Ht1 in D2.
  destruct D2 as (Hp2 & _ & Ho2 & Hn2 & evs2 & Ht2 & Hevs2).
  assert (Hleak : leaked 0 w2).
  { repeat split.
    - rewrite Ho2. now left.
    - rewrite Hp2. discriminate.
    - rewrite Hn2. lia.
    - rewrite Ht2. cbn [app].
      rewrite !count_cons, count_app, !count_cons.
      rewrite !(count_none (isRevoke 0) keepsPreview _
                  (keepsPreview_not_revoke 0)) by assumption.
      reflexivity. }
  destruct (run_leaked env actions 0 w2 Hleak) as (Hin & _ & _ & Hrev).
  auto.
Qed.

Lemma replaced_preview_never_revoked_witness :
  let w2 := run Examples.envNoKey
              [Drop [Examples.pngFile]; Drop [Examples.jpgFile]]
              initialWorld in
  let w := run Examples.envNoKey [Clear] w2 in
  objectUrls w2 = [0; 1] /\
  previewUrl (session w2) = Some 1 /\
  In 0 (objectUrls w) /\
  count (isRevoke 0) (trace w) = 0.
Proof.
  apply (replaced_preview_never_revoked Examples.envNoKey
           Examples.pngFile [] Examples.jpgFile [] [Clear]); reflexivity.
Defined.

(** ** More about processReceipt *)

Lemma sameSession_refl w : sameSession w w.
Proof. reflexivity. Qed.

Lemma sameSession_trans w1 w2 w3 :
  sameSession w1 w2 -> sameSession w2 w3 -> sameSession w1 w3.
Proof. unfold sameSession. congruence. Qed.

Lemma reportsOnly_sameSession w w' : reportsOnly w w' -> sameSession w w'.
Proof. intros [evs [-> _]]. reflexivity. Qed.

Lemma tryBlock_sameSession env file : confined sameSession (tryBlock env file).
Proof.
  unfold tryBlock.
  apply confined_bind; [apply sameSession_trans | | intros r].
  - eapply confined_weaken; [apply reportsOnly_sameSession|].
    apply extractionPipeline_reportsOnly.
  - apply confined_bind; [apply sameSession_trans | | intros described].
    + apply confined_complete. apply sameSession_refl.
    + intros w. unfold onReceiptData, bind, emit.
      destruct (onReceiptData_throws env described); reflexivity.
Qed.

Lemma processReceipt_tryBlock env file w :
  JsString.truthyOpt (apiKey env) = true ->
  processReceipt env file w =
    tryFinally (tryCatch (tryBlock env file) processReceiptCatch)
               (setIsLoading false) (snd (startLoading w)).
Proof. apply processReceipt_with_key. Qed.

(** Completion and final session of a run, in one equation per case. *)
Lemma processReceipt_completion env file w :
  fst (processReceipt env file w) = Normal tt /\
  session (snd (processReceipt env file w)) =
    mkSession false (processReceiptError env file w)
              (previewUrl (session w)) (fileType (session w)).
Proof.
  unfold processReceiptError.
  destruct (JsString.truthyOpt (apiKey env)) eqn:Hkey.
  - rewrite processReceipt_tryBlock by assumption.
    pose proof (tryBlock_sameSession env file (snd (startLoading w))) as Hs.
    unfold sameSession in Hs.
    unfold tryFinally, tryCatch.
    destruct (tryBlock env file (snd (startLoading w))) as [[[]|e] w1];
      cbn [fst snd] in *.
    + split; [reflexivity|]. cbn. rewrite Hs. reflexivity.
    + split; [reflexivity|]. cbn. rewrite Hs. reflexivity.
  - unfold processReceipt. rewrite Hkey. split; reflexivity.
Qed.

(** X1. [processReceipt] never throws: every run completes normally, so a
    [catch] block around it, such as the one of [onDrop], never runs. *)
Theorem processReceipt_never_throws env file w :
  fst (processReceipt env file w) = Normal tt /\
  forall handler,
    tryCatch (processReceipt env file) handler w = processReceipt env file w.
Proof.
  pose proof (processReceipt_completion env file w) as [Hn _].
  split; [assumption|]. intros handler. unfold tryCatch.
  destruct (processReceipt env file w) as [[u|e] w']; [reflexivity|].
  discriminate.
Qed.

(** X2. The session a run of [processReceipt] ends in: not loading, the
    preview and the file type as before, and an error that does not depend
    on the error before the run: the key message without a key, otherwise
    none when the [try] block completes and the general failure message when
    it throws. *)
Theorem processReceipt_final_session env file w :
  session (snd (processReceipt env file w)) =
    mkSession false
      (if JsString.truthyOpt (apiKey env) then
         match fst (tryBlock env file (snd (startLoading w))) with
         | Normal _ => None
         | Throw _ => Some processFailedMessage
         end
       else Some apiKeyMessage)
      (previewUrl (session w)) (fileType (session w)).
Proof. apply processReceipt_completion. Qed.

(** *** Requests to the model *)

Lemma consoleOnly_refl w : consoleOnly w w.
Proof. exists []. now rewrite logged_nil. Qed.

Lemma consoleOnly_trans w1 w2 w3 :
  consoleOnly w1 w2 -> consoleOnly w2 w3 -> consoleOnly w1 w3.
Proof.
  intros [a [-> Ha]] [b [-> Hb]]. exists (a ++ b).
  rewrite logged_logged, forallb_app, Ha, Hb. auto.
Qed.

Ltac consoles :=
  repeat first
    [ apply confined_ret; apply consoleOnly_refl
    | apply confined_throw; apply consoleOnly_refl
    | apply confined_bind; [apply consoleOnly_trans | | intros ?]
    | apply confined_tryCatch; [apply consoleOnly_trans | | intros ?] ].

Lemma fileToGenerativePart_consoleOnly env file :
  confined consoleOnly (fileToGenerativePart env file).
Proof.
  unfold fileToGenerativePart, loadPdf, saveAsBase64, consoleError.
  destruct (String.eqb (type file) pdfType); [|consoles].
  apply confined_tryCatch; [apply consoleOnly_trans | | intros e].
  - apply confined_bind; [apply consoleOnly_trans | | intros pdfDoc].
    + destruct (PDFDocument_load env (bytes file)); consoles.
    + destruct (Nat.eqb (getPageCount pdfDoc) 0); consoles.
      destruct (save pdfDoc); consoles.
  - apply confined_bind; [apply consoleOnly_trans | | intros _].
    + intros w. exists [ConsoleError "Error processing PDF:" e]. auto.
    + consoles.
Qed.

Lemma isConsole_not_modelCall e : isConsole e = true -> isModelCall e = false.
Proof. destruct e; try discriminate; reflexivity. Qed.

Lemma extractReceiptData_world env text w :
  snd (extractReceiptData env text w) = w.
Proof.
  unfold extractReceiptData, parseJson.
  destruct (RegExp.matchJson text) as [m|]; [|reflexivity].
  destruct (JSON_parse env m); reflexivity.
Qed.

(** X4. A run of [processReceipt] sends at most one request to the model:
    exactly one, with the fixed prompt and the encoded file, when there is a
    key and the encoding succeeds, and none otherwise. *)
Theorem model_called_at_most_once env file w :
  let w' := snd (processReceipt env file w) in
  exists evs,
    trace w' = trace w ++ evs /\
    if JsString.truthyOpt (apiKey env) then
      match fst (fileToGenerativePart env file (snd (startLoading w))) with
      | Normal imagePart =>
          count isModelCall evs = 1 /\
          In (GenerateContent prompt imagePart) evs
      | Throw _ => count isModelCall evs = 0
      end
    else count isModelCall evs = 0.
Proof.
  cbv zeta.
  destruct (JsString.truthyOpt (apiKey env)) eqn:Hkey.
  - rewrite processReceipt_tryBlock by assumption.
    destruct (fileToGenerativePart_consoleOnly env file (snd (startLoading w)))
      as [logs [Hw Hlogs]].
    pose proof (count_none isModelCall isConsole logs
                  isConsole_not_modelCall Hlogs) as Hnone.
    unfold tryFinally, tryCatch, tryBlock, extractionPipeline, bind.
    destruct (fileToGenerativePart env file (snd (startLoading w)))
      as [[imagePart|e] w1]; cbn [fst snd] in Hw |- *; subst w1.
    + unfold generateContentText, bind, emit.
      cbn [fst snd logged session objectUrls nextObjectUrl trace ret throw].
      destruct (generateContent env prompt imagePart) as [text|].
      * unfold ret.
        pose proof (extractReceiptData_world env text) as Hx.
        match goal with
        | |- context [extractReceiptData env text ?w0] =>
            specialize (Hx w0); destruct (extractReceiptData env text w0)
              as [[r|e] w2]; cbn [snd] in Hx; subst w2
        end.
        -- unfold complete.
           destruct (describeReceipt env r) as [described|e'].
           ++ unfold onReceiptData, bind, emit.
              destruct (onReceiptData_throws env described);
                cbn; rewrite <- !app_assoc; cbn [app];
                (eexists; split; [reflexivity|]); split;
                try (rewrite !count_cons, count_app, Hnone; reflexivity);
                right; right; apply in_or_app; right; now left.
           ++ cbn. rewrite <- !app_assoc. cbn [app].
              eexists; split; [reflexivity|]. split.
              ** rewrite !count_cons, count_app, Hnone. reflexivity.
              ** right. right. apply in_or_app. right. now left.
        -- cbn. rewrite <- !app_assoc. cbn [app].
           eexists; split; [reflexivity|]. split.
           ++ rewrite !count_cons, count_app, Hnone. reflexivity.
           ++ right. right. apply in_or_app. right. now left.
      * cbn. rewrite <- !app_assoc. cbn [app].
        eexists; split; [reflexivity|]. split.
        -- rewrite !count_cons, count_app, Hnone. reflexivity.
        -- right. right. apply in_or_app. right. now left.
    + cbn. rewrite <- !app_assoc. cbn [app].
      eexists; split; [reflexivity|].
      rewrite !count_cons, count_app, Hnone. reflexivity.
  - unfold processReceipt. rewrite Hkey. cbn. rewrite <- !app_assoc.
    eexists; split; reflexivity.
Qed.


(** X3. When the [try] block throws, the run ends with exactly three more
    effects: the exception on the console, the general failure message as
    the error, and [isLoading] false. *)
Theorem processReceipt_failure_logged env file w e :
  JsString.truthyOpt (apiKey env) = true ->
  fst (tryBlock env file (snd (startLoading w))) = Throw e ->
  trace (snd (processReceipt env file w)) =
    trace (snd (tryBlock env file (snd (startLoading w)))) ++
    [ConsoleError "Error processing receipt:" e;
     SetError (Some processFailedMessage); SetIsLoading false].
Proof.
  intros Hkey Hthrow. rewrite processReceipt_tryBlock by assumption.
  unfold tryFinally, tryCatch.
  destruct (tryBlock env file (snd (startLoading w))) as [[[]|e'] w1];
    cbn [fst snd] in *; [discriminate|].
  injection Hthrow as ->. cbn. rewrite <- !app_assoc. reflexivity.
Qed.

Lemma processReceipt_failure_logged_witness :
  trace (snd (processReceipt Examples.envToy Examples.pdfFile initialWorld)) =
    trace (snd (tryBlock Examples.envToy Examples.pdfFile
                  (snd (startLoading initialWorld)))) ++
    [ConsoleError "Error processing receipt:"
       (Error "Failed to process PDF file");
     SetError (Some processFailedMessage); SetIsLoading false].
Proof.
  apply (processReceipt_failure_logged Examples.envToy Examples.pdfFile
           initialWorld (Error "Failed to process PDF file"));
    reflexivity.
Defined.


(** ** More about onDrop and sessions *)

(** A supported drop is the allocation of the preview followed by
    [processReceipt]; the [catch] block around it never runs. *)
Lemma onDrop_supported_run env file rest w :
  supportedType (type file) = true ->
  onDrop env (file :: rest) w =
    (Normal (Some (nextObjectUrl w)),
     snd (processReceipt env file (previewing file w))).
Proof.
  intros Hsup. rewrite onDrop_supported_eq by assumption.
  pose proof (processReceipt_completion env file (previewing file w))
    as [Hn _].
  unfold bind, tryCatch.
  destruct (processReceipt env file (previewing file w)) as [[[]|e] w'];
    [reflexivity | discriminate].
Qed.

Lemma onDrop_supported_session env file rest w :
  supportedType (type file) = true ->
  session (snd (onDrop env (file :: rest) w)) =
    mkSession false (processReceiptError env file (previewing file w))
              (Some (nextObjectUrl w)) (Some (type file)).
Proof.
  intros Hsup. rewrite onDrop_supported_run by assumption. cbn [snd].
  pose proof (processReceipt_completion env file (previewing file w))
    as [_ Hs].
  rewrite Hs. reflexivity.
Qed.

(** X5. A drop of a supported file never throws and returns the clean-up
    function of the URL it created; the session ends with that URL as the
    preview, the declared type as the file type, not loading, and the error
    that [processReceipt] leaves. A missing key does not prevent the
    preview. *)
Theorem onDrop_supported_outcome env file rest w :
  supportedType (type file) = true ->
  fst (onDrop env (file :: rest) w) = Normal (Some (nextObjectUrl w)) /\
  session (snd (onDrop env (file :: rest) w)) =
    mkSession false
      (if JsString.truthyOpt (apiKey env) then
         match fst (tryBlock env file
                      (snd (startLoading (previewing file w)))) with
         | Normal _ => None
         | Throw _ => Some processFailedMessage
         end
       else Some apiKeyMessage)
      (Some (nextObjectUrl w)) (Some (type file)).
Proof.
  intros Hsup. split.
  - rewrite onDrop_supported_run by assumption. reflexivity.
  - apply onDrop_supported_session. assumption.
Qed.

Lemma onDrop_supported_outcome_witness :
  fst (onDrop Examples.envNoKey [Examples.pngFile] initialWorld)
    = Normal (Some 0) /\
  session (snd (onDrop Examples.envNoKey [Examples.pngFile] initialWorld)) =
    mkSession false (Some apiKeyMessage) (Some 0) (Some "image/png"%string).
Proof.
  apply (onDrop_supported_outcome Examples.envNoKey Examples.pngFile []
           initialWorld).
  reflexivity.
Defined.

(** *** Invariants of a session *)

Lemma NoDup_remove_all (u : ObjectURL) (l : list ObjectURL) :
  NoDup l -> NoDup (remove Nat.eq_dec u l).
Proof.
  induction 1 as [|x l Hx Hl IH]; cbn [remove]; [constructor|].
  destruct (Nat.eq_dec u x); [assumption|].
  constructor; [|assumption].
  intros Hin. apply in_remove in Hin. tauto.
Qed.

Lemma remove_fresh_last (u : ObjectURL) (l : list ObjectURL) :
  ~ In u l -> remove Nat.eq_dec u (l ++ [u]) = l.
Proof.
  intros Hu. rewrite remove_app. rewrite notin_remove by assumption.
  cbn [remove]. destruct (Nat.eq_dec u u); [|contradiction].
  apply app_nil_r.
Qed.

Lemma wellFormed_fresh w : wellFormed w -> ~ In (nextObjectUrl w) (objectUrls w).
Proof. intros (_ & _ & _ & Hlt & _) Hin. apply Hlt in Hin. lia. Qed.

Lemma step_wellFormed env a w : wellFormed w -> wellFormed (step env a w).
Proof.
  intros Hw. pose proof (wellFormed_fresh w Hw) as Hfresh.
  destruct Hw as (Hload & Hboth & Hlive & Hlt & Hnd).
  destruct a as [[|file rest]|]; cbn [step].
  - repeat split; assumption || apply Hboth.
  - destruct (supportedType (type file)) eqn:Hsup.
    + pose proof (onDrop_supported_session env file rest w Hsup) as Hs.
      destruct (onDrop_supported env file rest w Hsup)
        as (_ & _ & Ho & Hn & _).
      unfold wellFormed. rewrite Hs, Ho, Hn.
      cbn [isLoading previewUrl fileType].
      repeat split; try discriminate.
      * intros u [= <-]. apply in_or_app. right. now left.
      * intros u Hin. apply in_app_or in Hin. destruct Hin as [Hin|[<-|[]]].
        -- apply Hlt in Hin. lia.
        -- lia.
      * apply NoDup_app; [assumption | repeat constructor; auto |].
        intros u Hin [<-|[]]. contradiction.
    + rewrite onDrop_unsupported by assumption. cbn [snd].
      unfold wellFormed.
      cbn [session objectUrls nextObjectUrl isLoading previewUrl fileType].
      repeat split; assumption || apply Hboth.
  - rewrite clearPreview_run.
    destruct (previewUrl (session w)) as [v|] eqn:Hv; cbn [snd].
    + unfold wellFormed.
      cbn [session objectUrls nextObjectUrl isLoading previewUrl fileType].
      repeat split; try assumption; try discriminate.
      * intros u Hin. apply in_remove in Hin. apply Hlt. tauto.
      * apply NoDup_remove_all. assumption.
    + unfold wellFormed. rewrite Hv. repeat split; assumption || apply Hboth.
Qed.

Lemma initialWorld_wellFormed : wellFormed initialWorld.
Proof.
  repeat split; cbn; try discriminate; try tauto; try constructor.
Qed.

Lemma run_wellFormed env actions w :
  wellFormed w -> wellFormed (run env actions w).
Proof.
  revert w. induction actions as [|a actions IH]; intros w H; [assumption|].
  apply IH. apply step_wellFormed. assumption.
Qed.



(** *** Revocations *)

Lemma step_revokedOnce env a w :
  wellFormed w -> revokedOnce w -> revokedOnce (step env a w).
Proof.
  intros (_ & _ & Hlive & Hlt & _) Hrev.
  destruct a as [[|file rest]|]; cbn [step].
  - assumption.
  - destruct (supportedType (type file)) eqn:Hsup.
    + destruct (onDrop_supported env file rest w Hsup)
        as (_ & _ & Ho & Hn & evs & Ht & Hevs).
      intros u. destruct (Hrev u) as (Hin & Hnext & Hone).
      assert (Hcount : count (isRevoke u) (trace (snd (onDrop env (file :: rest) w)))
                       = count (isRevoke u) (trace w)).
      { rewrite Ht, count_app, !count_cons.
        rewrite (count_none (isRevoke u) keepsPreview evs
                   (keepsPreview_not_revoke u) Hevs).
        cbn [isRevoke]. lia. }
      rewrite Hcount, Ho, Hn.
      split; [|split; [intros; apply Hnext; lia | assumption]].
      intros H. apply in_app_or in H. destruct H as [H|[<-|[]]]; auto.
    + rewrite onDrop_unsupported by assumption. cbn [snd].
      intros u. destruct (Hrev u) as (Hin & Hnext & Hone).
      cbn [objectUrls nextObjectUrl trace].
      rewrite count_app, count_cons. cbn [isRevoke count filter List.length].
      rewrite !Nat.add_0_r. split; [|split]; assumption.
  - rewrite clearPreview_run.
    destruct (previewUrl (session w)) as [v|] eqn:Hv; cbn [snd];
      [|assumption].
    specialize (Hlive v eq_refl).
    destruct (Hrev v) as (Hv0 & _ & _). specialize (Hv0 Hlive).
    intros u. destruct (Hrev u) as (Hin & Hnext & Hone).
    cbn [objectUrls nextObjectUrl trace].
    rewrite count_app, count_revoke_clear.
    destruct (Nat.eqb_spec u v) as [->|Hne].
    + rewrite Hv0. split; [|split; [|lia]].
      * intros H. apply in_remove in H. tauto.
      * intros H. apply Hlt in Hlive. lia.
    + rewrite Nat.add_0_r. split; [|split; assumption].
      intros H. apply in_remove in H. tauto.
Qed.

Lemma run_revokedOnce env actions w :
  wellFormed w -> revokedOnce w ->
  wellFormed (run env actions w) /\ revokedOnce (run env actions w).
Proof.
  revert w. induction actions as [|a actions IH]; intros w Hw Hr; [auto|].
  apply IH; [apply step_wellFormed | apply step_revokedOnce]; assumption.
Qed.

Lemma initialWorld_revokedOnce : revokedOnce initialWorld.
Proof. intros u. cbn. split; [intros []|split; [reflexivity|lia]]. Qed.

Lemma reachable_invariants env actions :
  wellFormed (run env actions initialWorld) /\
  revokedOnce (run env actions initialWorld).
Proof.
  apply run_revokedOnce;
    [apply initialWorld_wellFormed | apply initialWorld_revokedOnce].
Qed.

(** X7. Between user actions of any history: the session is not loading; a
    preview is an allocated URL that was never revoked and comes with a file
    type, and without preview there is no file type; every allocated URL was
    handed out before; and no URL is allocated twice. *)
Theorem reachable_session_invariant env actions :
  let w := run env actions initialWorld in
  isLoading (session w) = false /\
  match previewUrl (session w) with
  | Some u =>
      In u (objectUrls w) /\
      count (isRevoke u) (trace w) = 0 /\
      exists t, fileType (session w) = Some t
  | None => fileType (session w) = None
  end /\
  Forall (fun u => u < nextObjectUrl w) (objectUrls w) /\
  NoDup (objectUrls w).
Proof.
  cbv zeta.
  destruct (reachable_invariants env actions)
    as [(Hload & Hboth & Hlive & Hlt & Hnd) Hrev].
  split; [assumption|]. split; [|split; [|assumption]].
  - destruct (previewUrl (session (run env actions initialWorld)))
      as [u|] eqn:Hu.
    + specialize (Hlive u eq_refl). split; [assumption|]. split.
      * destruct (Hrev u) as (Hzero & _ & _). apply Hzero. assumption.
      * destruct (fileType (session (run env actions initialWorld)))
          as [t|] eqn:Ht; [now exists t|].
        destruct Hboth as [_ Hb]. discriminate (Hb eq_refl).
    + apply Hboth. reflexivity.
  - apply Forall_forall. assumption.
Qed.

(** X8. In every history no object URL is revoked twice, and a revoked URL
    is one that was created and is no longer allocated. *)
Theorem no_object_url_revoked_twice env actions u :
  let w := run env actions initialWorld in
  count (isRevoke u) (trace w) <= 1 /\
  (count (isRevoke u) (trace w) = 1 ->
   u < nextObjectUrl w /\ ~ In u (objectUrls w)).
Proof.
  cbv zeta.
  destruct (reachable_invariants env actions) as [_ Hr].
  destruct (Hr u) as (Hin & Hnext & Hone).
  split; [assumption|]. intros H1. split.
  - destruct (Nat.lt_ge_cases u (nextObjectUrl (run env actions initialWorld)))
      as [Hlt|Hge]; [assumption|]. apply Hnext in Hge. lia.
  - intros H. apply Hin in H. lia.
Qed.

(** *** Drops alone *)

Lemma run_cons env a actions w :
  run env (a :: actions) w = run env actions (step env a w).
Proof. reflexivity. Qed.

Lemma drops_keep_everything env actions w n :
  forallb (fun a => negb (isClear a)) actions = true ->
  objectUrls w = seq 0 n -> nextObjectUrl w = n ->
  let w' := run env actions w in
  objectUrls w' = seq 0 (n + supportedDrops actions) /\
  nextObjectUrl w' = n + supportedDrops actions.
Proof.
  revert w n. induction actions as [|a actions IH]; intros w n Hall Ho Hn.
  - cbn. rewrite Nat.add_0_r. auto.
  - cbn [forallb] in Hall. apply andb_true_iff in Hall.
    destruct Hall as [Ha Hall]. cbv zeta. rewrite run_cons.
    unfold supportedDrops. cbn [filter].
    destruct a as [[|file rest]|]; [| |discriminate]; cbn [isSupportedDrop step].
    + apply (IH w n); assumption.
    + destruct (supportedType (type file)) eqn:Hsup.
      * destruct (onDrop_supported env file rest w Hsup)
          as (_ & _ & Ho' & Hn' & _).
        cbn [List.length]. rewrite Nat.add_succ_r, <- Nat.add_succ_l.
        apply IH; [assumption | | rewrite Hn', Hn; reflexivity].
        rewrite Ho', Ho, Hn, seq_S. reflexivity.
      * rewrite onDrop_unsupported by assumption. cbn [snd].
        apply IH; assumption.
Qed.

(** X9. Drops alone release nothing: after a history without clear the
    allocated URLs are all the URLs ever created, one per supported drop;
    empty and unsupported drops create none. *)
Theorem drops_never_release env actions :
  forallb (fun a => negb (isClear a)) actions = true ->
  let w := run env actions initialWorld in
  objectUrls w = seq 0 (supportedDrops actions) /\
  nextObjectUrl w = supportedDrops actions.
Proof.
  intros Hall.
  apply (drops_keep_everything env actions initialWorld 0 Hall); reflexivity.
Qed.

Lemma drops_never_release_witness :
  let actions := [Drop [Examples.pngFile]; Drop [Examples.txtFile];
                  Drop []; Drop [Examples.pdfFile; Examples.gifFile]] in
  let w := run Examples.envToy actions initialWorld in
  objectUrls w = [0; 1] /\ nextObjectUrl w = 2.
Proof.
  apply (drops_never_release Examples.envToy
           [Drop [Examples.pngFile]; Drop [Examples.txtFile];
            Drop []; Drop [Examples.pdfFile; Examples.gifFile]]).
  reflexivity.
Defined.

(** *** Clearing *)

(** X11. After any history, a supported drop followed by clear leaves the
    initial session and the object-URL store as it was before the drop; the
    URL of the drop is revoked exactly once. *)
Theorem drop_then_clear_restores env actions file rest :
  supportedType (type file) = true ->
  let w := run env actions initialWorld in
  let w' := run env [Drop (file :: rest); Clear] w in
  session w' = initialSession /\
  objectUrls w' = objectUrls w /\
  exists evs,
    trace w' = trace w ++ evs /\
    count (isRevoke (nextObjectUrl w)) evs = 1.
Proof.
  intros Hsup w w'. subst w'.
  assert (Hw : wellFormed w) by apply run_wellFormed, initialWorld_wellFormed.
  pose proof (wellFormed_fresh w Hw) as Hfresh.
  cbn [run fold_left step].
  pose proof (onDrop_supported_session env file rest w Hsup) as Hs.
  destruct (onDrop_supported env file rest w Hsup)
    as (_ & _ & Ho & _ & evs & Ht & Hevs).
  rewrite clearPreview_run, Hs. cbn [previewUrl snd session objectUrls trace isLoading].
  rewrite Ho, remove_fresh_last by assumption.
  repeat split.
  rewrite Ht, <- app_assoc. eexists. split; [reflexivity|].
  rewrite count_app, count_revoke_clear, Nat.eqb_refl, !count_cons.
  rewrite (count_none (isRevoke (nextObjectUrl w)) keepsPreview evs
             (keepsPreview_not_revoke _) Hevs).
  reflexivity.
Qed.

Lemma drop_then_clear_restores_witness :
  let w := run Examples.envToy [Drop [Examples.jpgFile]] initialWorld in
  let w' := run Examples.envToy [Drop [Examples.pngFile]; Clear] w in
  session w' = initialSession /\
  objectUrls w' = objectUrls w /\
  exists evs,
    trace w' = trace w ++ evs /\
    count (isRevoke (nextObjectUrl w)) evs = 1.
Proof.
  apply (drop_then_clear_restores Examples.envToy [Drop [Examples.jpgFile]]
           Examples.pngFile []).
  reflexivity.
Defined.


(** ** More about the extraction of the JSON text *)

(** X12. Text before the first opening brace and after the last closing
    brace is ignored: the reply is decoded exactly as the object between
    them would be. *)
Theorem extractReceiptData_ignores_prose env pre body post w :
  JsString.occurs RegExp.openBrace pre = false ->
  JsString.occurs RegExp.closeBrace post = false ->
  let object := String RegExp.openBrace
                  (body ++ String RegExp.closeBrace EmptyString)%string in
  extractReceiptData env
    (pre ++ String RegExp.openBrace
              (body ++ String RegExp.closeBrace post))%string w
  = parseJson env object w.
Proof.
  intros Hpre Hpost object. unfold extractReceiptData.
  assert (RegExp.matchJson
            (pre ++ String RegExp.openBrace
                      (body ++ String RegExp.closeBrace post))%string
          = Some object) as ->; [|reflexivity].
  apply RegExpFacts.matchJson_some. exists pre, body, post. auto.
Qed.

Lemma extractReceiptData_ignores_prose_witness :
  extractReceiptData Examples.envToy "Here you go: {items} Bye" initialWorld
  = (Normal (toObject Examples.milkReceipt), initialWorld).
Proof.
  apply (extractReceiptData_ignores_prose Examples.envToy
           "Here you go: " "items" " Bye" initialWorld); reflexivity.
Defined.

Lemma matchJson_needs_braces text :
  JsString.occurs RegExp.openBrace text = false \/
  JsString.occurs RegExp.closeBrace text = false ->
  RegExp.matchJson text = None.
Proof.
  intros H. destruct (RegExp.matchJson text) as [m|] eqn:Hm; [|reflexivity].
  exfalso. apply RegExpFacts.matchJson_some in Hm.
  destruct Hm as (pre & body & post & -> & _).
  destruct H as [H|H].
  - rewrite JsStringFacts.occurs_middle in H. discriminate.
  - change (String RegExp.openBrace (body ++ String RegExp.closeBrace post))%string
      with (String RegExp.openBrace body ++ String RegExp.closeBrace post)%string
      in H.
    rewrite <- JsStringFacts.append_assoc in H.
    rewrite JsStringFacts.occurs_middle in H. discriminate.
Qed.

(** X13. A reply without opening brace or without closing brace, the empty
    reply included, is rejected with the error about JSON, and [JSON.parse]
    is not consulted. *)
Theorem reply_without_braces_is_rejected env text w :
  JsString.occurs RegExp.openBrace text = false \/
  JsString.occurs RegExp.closeBrace text = false ->
  extractReceiptData env text w =
    (Throw (Error "Could not extract valid JSON from the response"), w).
Proof.
  intros H. unfold extractReceiptData.
  rewrite matchJson_needs_braces by assumption. reflexivity.
Qed.

Lemma reply_without_braces_is_rejected_witness :
  extractReceiptData Examples.envToy "" initialWorld =
    (Throw (Error "Could not extract valid JSON from the response"),
     initialWorld).
Proof.
  apply (reply_without_braces_is_rejected Examples.envToy "" initialWorld).
  left. reflexivity.
Defined.

(** ** More about the description *)

(** X14. The parent receives a record without description exactly when the
    reply had no item, no non-empty merchant and no description. *)
Theorem description_unset_iff r :
  description (deriveDescription r) = None <->
  hasItems r = false /\
  JsString.truthyOpt (merchant r) = false /\
  description r = None.
Proof.
  unfold deriveDescription.
  destruct (hasItems r) eqn:Hi.
  - cbn [setDescription description]. split; [discriminate|].
    intros (H & _). discriminate.
  - destruct (JsString.truthyOpt (merchant r)) eqn:Hm.
    + cbn [setDescription description].
      destruct (merchant r) as [m|]; [|discriminate].
      split; [discriminate|]. intros (_ & H & _). discriminate.
    + tauto.
Qed.

(** ** What is shown *)

Section Rendering.
Variable cn : string -> string -> string.
Variable isDragActive : bool.

(** X15. The error is rendered at most once: exactly once when it is a
    non-empty string, except while loading with a preview, when it is
    hidden; never otherwise. *)
Theorem error_shown_at_most_once s :
  countTag "AlertCircle" (render cn isDragActive s) =
    if JsString.truthyOpt (error s)
       && negb (isLoading s && match previewUrl s with
                               | Some _ => true
                               | None => false
                               end)
    then 1 else 0.
Proof.
  destruct s as [l [[|c m]|] [u|] [t|]]; destruct l;
    unfold render; cbn [isLoading error previewUrl fileType];
    try (destruct (String.eqb t "application/pdf")); reflexivity.
Qed.

(** X16. Whenever the remove button is rendered, its only handler is the one
    that calls [clearPreview]; the session then has a preview and is not
    loading, and the call revokes that URL and leaves the initial session. *)
Theorem remove_button_clears w :
  0 < countTag "button" (render cn isDragActive (session w)) ->
  buttonHandlers (render cn isDragActive (session w))
    = [StopPropagationThenClearPreview] /\
  exists u,
    previewUrl (session w) = Some u /\ isLoading (session w) = false /\
    clearPreview w =
      (Normal tt,
       mkWorld initialSession (remove Nat.eq_dec u (objectUrls w))
               (nextObjectUrl w)
               (trace w ++ [RevokeObjectURL u; SetPreviewUrl None;
                            SetFileType None; SetError None])).
Proof.
  intros Hbutton. rewrite clearPreview_run.
  destruct (session w) as [l e p t].
  assert (Hshown : l = false /\ exists u, p = Some u).
  { destruct l, p as [u|], e as [[|c m]|];
      unfold render in Hbutton;
      cbn [isLoading error previewUrl fileType] in Hbutton;
      try (cbv in Hbutton; lia); eauto. }
  destruct Hshown as [-> [u ->]].
  unfold render. cbn [isLoading error previewUrl fileType]. split.
  - destruct (match t with
              | Some t0 => String.eqb t0 "application/pdf"
              | None => false
              end), e as [[|c m]|]; reflexivity.
  - exists u. repeat split.
Qed.

Lemma imgSources_render s :
  imgSources (render cn isDragActive s) =
    if isLoading s then []
    else match previewUrl s with
         | Some u =>
             if match fileType s with
                | Some t => String.eqb t "application/pdf"
                | None => false
                end
             then [] else [u]
         | None => []
         end.
Proof.
  destruct s as [l e p t]. unfold render.
  cbn [isLoading error previewUrl fileType].
  destruct l, p as [u|], e as [[|c m]|];
    try (destruct (match t with
                   | Some t0 => String.eqb t0 "application/pdf"
                   | None => false
                   end));
    reflexivity.
Qed.

(** X17. In every reachable session the images rendered load the current
    preview only, an allocated URL that was never revoked; a PDF is never
    rendered as an image. *)
Theorem shown_image_is_allocated env actions :
  let w := run env actions initialWorld in
  Forall (fun u => previewUrl (session w) = Some u /\
                   In u (objectUrls w) /\
                   count (isRevoke u) (trace w) = 0)
         (imgSources (render cn isDragActive (session w))) /\
  (fileType (session w) = Some "application/pdf"%string ->
   imgSources (render cn isDragActive (session w)) = []).
Proof.
  cbv zeta. rewrite imgSources_render.
  destruct (reachable_invariants env actions)
    as [(Hload & Hboth & Hlive & Hlt & Hnd) Hrev].
  rewrite Hload. split.
  - destruct (previewUrl (session (run env actions initialWorld)))
      as [u|] eqn:Hu; [|constructor].
    destruct (match fileType (session (run env actions initialWorld)) with
              | Some t => String.eqb t "application/pdf"
              | None => false
              end); constructor; [|constructor].
    specialize (Hlive u eq_refl). repeat split; [assumption|].
    destruct (Hrev u) as (Hzero & _ & _). apply Hzero. assumption.
  - intros ->. cbn.
    destruct (previewUrl (session (run env actions initialWorld)));
      reflexivity.
Qed.
Lemma buttonHandlers_render s :
  buttonHandlers (render cn isDragActive s) =
    if isLoading s then []
    else match previewUrl s with
         | Some _ => [StopPropagationThenClearPreview]
         | None => []
         end.
Proof.
  destruct s as [l e p t]. unfold render.
  cbn [isLoading error previewUrl fileType].
  destruct l, p as [u|], e as [[|c m]|];
    try (destruct (match t with
                   | Some t0 => String.eqb t0 "application/pdf"
                   | None => false
                   end));
    reflexivity.
Qed.

(** C6. In every state a session can reach, the clear operation is on offer
    exactly when a preview is present: the remove button is rendered with
    [clearPreview] as its handler. Clearing then completes normally, revokes
    the URL of the preview, which was allocated and never revoked before, so
    that it is released exactly once and no longer allocated, and leaves the
    idle session: not loading, no preview, no file type, no error. *)
Theorem clearPreview_releases_once_and_idles env actions :
  let w := run env actions initialWorld in
  let w' := snd (clearPreview w) in
  match previewUrl (session w) with
  | Some u =>
      buttonHandlers (render cn isDragActive (session w))
        = [StopPropagationThenClearPreview] /\
      fst (clearPreview w) = Normal tt /\
      session w' = initialSession /\
      In u (objectUrls w) /\
      objectUrls w' = remove Nat.eq_dec u (objectUrls w) /\
      ~ In u (objectUrls w') /\
      trace w' = trace w ++ [RevokeObjectURL u; SetPreviewUrl None;
                             SetFileType None; SetError None] /\
      count (isRevoke u) (trace w') = 1
  | None => buttonHandlers (render cn isDragActive (session w)) = []
  end.
Proof.
  cbv zeta. rewrite buttonHandlers_render, clearPreview_run.
  destruct (reachable_invariants env actions)
    as [(Hload & Hboth & Hlive & Hlt & Hnd) Hrev].
  rewrite Hload.
  destruct (previewUrl (session (run env actions initialWorld)))
    as [u|] eqn:Hu; [|reflexivity].
  specialize (Hlive u eq_refl).
  destruct (Hrev u) as (Hzero & _ & _). specialize (Hzero Hlive).
  cbn [fst snd session objectUrls trace].
  repeat match goal with |- _ /\ _ => split end;
    try reflexivity; try assumption.
  - apply remove_In.
  - rewrite count_app, Hzero, count_revoke_clear, Nat.eqb_refl. reflexivity.
Qed.

End Rendering.

Lemma remove_button_clears_witness :
  let w := run Examples.envNoKey [Drop [Examples.pngFile]] initialWorld in
  buttonHandlers (render String.append false (session w))
    = [StopPropagationThenClearPreview] /\
  exists u,
    previewUrl (session w) = Some u /\ isLoading (session w) = false /\
    clearPreview w =
      (Normal tt,
       mkWorld initialSession (remove Nat.eq_dec u (objectUrls w))
               (nextObjectUrl w)
               (trace w ++ [RevokeObjectURL u; SetPreviewUrl None;
                            SetFileType None; SetError None])).
Proof.
  apply (remove_button_clears String.append false
           (run Examples.envNoKey [Drop [Examples.pngFile]] initialWorld)).
  vm_compute. lia.
Defined.


(** ** A whole drop *)

Lemma image_is_not_pdf t :
  JsString.startsWith "image/" t = true -> String.eqb t pdfType = false.
Proof.
  destruct t as [|c t]; [discriminate|]. cbn [JsString.startsWith].
  intros H. apply andb_true_iff in H. destruct H as [Hc _].
  apply Ascii.eqb_eq in Hc. subst c. reflexivity.
Qed.

(** X6. The effects of a successful drop of an image, in order: the URL is
    created and becomes the preview, loading starts and the error is
    cleared, one request carries the prompt and the base64 content, the
    parent receives the object decoded from the reply with the description
    derived from it, and loading ends; the session shows the preview without
    error. The description must be derivable from the decoded object, as it
    is for every object of the declared shape. *)
Theorem drop_image_happy_path env file rest w pre body post receiptData
    described :
  JsString.truthyOpt (apiKey env) = true ->
  JsString.startsWith "image/" (type file) = true ->
  JsString.occurs ","%char (type file) = false ->
  let payload :=
    mkInlineData (Some (Base64.encode (bytes file))) (type file) in
  let object :=
    String RegExp.openBrace
      (body ++ String RegExp.closeBrace EmptyString)%string in
  generateContent env prompt payload =
    Some (pre ++ String RegExp.openBrace
                   (body ++ String RegExp.closeBrace post))%string ->
  JsString.occurs RegExp.openBrace pre = false ->
  JsString.occurs RegExp.closeBrace post = false ->
  JSON_parse env object = Some receiptData ->
  describeReceipt env receiptData = Normal described ->
  onReceiptData_throws env described = false ->
  let u := nextObjectUrl w in
  onDrop env (file :: rest) w =
    (Normal (Some u),
     mkWorld (mkSession false None (Some u) (Some (type file)))
             (objectUrls w ++ [u]) (S u)
             (trace w ++
              [CreateObjectURL u; SetPreviewUrl (Some u);
               SetFileType (Some (type file));
               SetIsLoading true; SetError None;
               GenerateContent prompt payload;
               OnReceiptData described;
               SetIsLoading false])).
Proof.
  intros Hkey Himage Hcomma payload object Hreply Hpre Hpost Hparse
         Hdescribed Hcb u.
  assert (Hsup : supportedType (type file) = true).
  { unfold supportedType. now rewrite Himage. }
  rewrite onDrop_supported_run by assumption.
  rewrite processReceipt_with_key by assumption.
  unfold tryFinally, tryCatch, extractionPipeline, bind at 1 2 3.
  rewrite image_payload by (auto using image_is_not_pdf).
  fold payload.
  unfold generateContentText, bind, emit. rewrite Hreply. unfold ret.
  unfold extractReceiptData.
  assert (RegExp.matchJson
            (pre ++ String RegExp.openBrace
                      (body ++ String RegExp.closeBrace post))%string
          = Some object) as ->.
  { apply RegExpFacts.matchJson_some. exists pre, body, post. auto. }
  unfold parseJson. rewrite Hparse.
  unfold ret, complete. rewrite Hdescribed.
  unfold onReceiptData, bind, emit.
  rewrite Hcb. cbn. rewrite <- !app_assoc. reflexivity.
Qed.

Lemma drop_image_happy_path_witness :
  onDrop Examples.envToy [Examples.pngFile] initialWorld =
    (Normal (Some 0),
     mkWorld (mkSession false None (Some 0) (Some "image/png"%string))
             [0] 1
             [CreateObjectURL 0; SetPreviewUrl (Some 0);
              SetFileType (Some "image/png"%string);
              SetIsLoading true; SetError None;
              GenerateContent prompt
                (mkInlineData (Some "YWJj"%string) "image/png");
              OnReceiptData
                (toObject (deriveDescription Examples.milkReceipt));
              SetIsLoading false]).
Proof.
  apply (drop_image_happy_path Examples.envToy Examples.pngFile []
           initialWorld "Here you go: " "items" " Bye"
           (toObject Examples.milkReceipt)
           (toObject (deriveDescription Examples.milkReceipt)));
    reflexivity.
Defined.
